(** * Zilliqa: message dispatch, start-up synchronisation and self
      identification (src/libZilliqa/Zilliqa.cpp)

    A shallow embedding of the member functions of class [Zilliqa]:
    [LogSelfNodeInfo], [ProcessMessage], the constructor, the destructor,
    [Dispatch] and [RetrieveBroadcastList].

    Every function is embedded as a computation in a small monad that
    records, in program order, the calls the function makes on its
    collaborators (handlers, logger, heap, node, lookup, ...) and that
    can end in a C++ exception.  The message queue and the worker pool,
    which the functions share between threads, are embedded as a
    labelled transition system whose labels are the atomic actions of
    the threads. *)

From Stdlib Require Import NArith Strings.Byte String.
From stdpp Require Import base list gmap strings.

Local Open Scope N_scope.

(** ** Data *)

(** [unsigned char]. *)
Abbreviation byte := Byte.byte.

(** [Peer]: the two fields of the class; only [m_listenPortHost] is read
    by this file. *)
Record Peer : Type := mkPeer {
  m_ipAddress : N;
  m_listenPortHost : N
}.

(** A heap allocated [pair<vector<unsigned char>, Peer>], as the raw
    pointer the dispatcher passes around: the address identifies the
    allocation, [first] and [second] are the members of the pointee (no
    function of this file writes to them). *)
Record MessagePtr : Type := mkMessage {
  address : N;
  first : list byte;
  second : Peer
}.

(** The members of [Zilliqa] that implement [Executable] and
    [Broadcastable]: peer manager, directory service, node, consensus
    user and lookup. *)
Inductive Handler : Type := m_pm | m_ds | m_n | m_cu | m_lookup.

(** Modelled from the spec: the enumeration [MessageOffset] of
    common/Messages.h is not among the sources; the wire shape of the
    spec puts the type tag in byte 0, the instruction tag in byte 1 and
    the payload from byte 2 on. *)
Module MessageOffset.
Definition TYPE : N := 0.
Definition INST : N := 1.
Definition BODY : N := 2.
End MessageOffset.

(** Modelled from the spec: the enumeration [SyncType] is declared
    outside the sources; its enumerators are numbered in the order in
    which the spec lists the sync modes.  The constructor receives the
    mode as an [unsigned int]. *)
Module SyncType.
Definition NO_SYNC : N := 0.
Definition NEW_SYNC : N := 1.
Definition NORMAL_SYNC : N := 2.
Definition DS_SYNC : N := 3.
Definition LOOKUP_SYNC : N := 4.
End SyncType.

(** Modelled from the spec: [ACC_ADDR_SIZE] of common/Constants.h, the
    20 byte width of an address. *)
Definition ACC_ADDR_SIZE : N := 20.

(** ** Effects *)

Inductive Level : Type := INFO | WARNING.

(** One operand of a [<<] chain streamed into a log line. *)
Inductive Piece : Type :=
| Str (s : string)        (* a string literal *)
| Hex (n : N)             (* an unsigned int after [std::hex] *)
| Num (n : N)             (* an unsigned int *)
| Addr (a : list byte).   (* an [Address] *)

(** The calls a member function makes on the world outside it, with
    their arguments. *)
Inductive Effect : Type :=
| LOG_MARKER
| LOG_GENERAL (level : Level) (msg : list Piece)
| LOG_PAYLOAD (level : Level) (msg : string) (payload : list byte)
              (max_bytes_to_display : N)
| Execute (h : Handler) (owner : N) (message : list byte) (offset : N)
          (from : Peer)
| GetBroadcastList (h : Handler) (ins_type : byte) (from : Peer)
| delete (message : N)
| DetachedFunction (num_threads : N)
| make_shared_Validator
| RegisterColleagues
| Install (syncType : N) (toRetrieveHistory : bool)
| SetSelfPeer (peer : Peer)
| Whitelist_Init
| set_lookup_syncType (v : N)       (* m_mediator.m_lookup->m_syncType = v *)
| set_runFromLate (b : bool)        (* m_n.m_runFromLate = b *)
| StartSynchronization (h : Handler)
| StartListening.

(** ** The monad: a trace of effects and a result or an exception *)

Inductive Exception : Type :=
| out_of_range           (* thrown by [vector::at] *)
| undefined_behaviour.   (* an access the language gives no meaning *)

Inductive Result (A : Type) : Type :=
| Ok (a : A)
| Raise (e : Exception).
Arguments Ok {A} a.
Arguments Raise {A} e.

Definition M (A : Type) : Type := list Effect * Result A.

Definition ret {A} (a : A) : M A := ([], Ok a).

Definition bind {A B} (m : M A) (k : A -> M B) : M B :=
  match m with
  | (t, Ok a) => let '(t', r) := k a in (t ++ t', r)
  | (t, Raise e) => (t, Raise e)
  end.

Definition emit (e : Effect) : M unit := ([e], Ok tt).

Definition throw {A} (e : Exception) : M A := ([], Raise e).

#[global] Instance M_ret : MRet M := @ret.
#[global] Instance M_bind : MBind M := fun A B k m => bind m k.

Definition trace {A} (m : M A) : list Effect := fst m.
Definition result {A} (m : M A) : Result A := snd m.

(** [v.at(n)]: bounds checked access. *)
Definition at_ (v : list byte) (n : N) : M byte :=
  match v !! N.to_nat n with
  | Some b => ret b
  | None => throw out_of_range
  end.

(** [a[i]] on a built-in array: no meaning out of range. *)
Definition subscript {A} (a : list A) (i : N) : M A :=
  match a !! N.to_nat i with
  | Some x => ret x
  | None => throw undefined_behaviour
  end.

(** [v.size()]. *)
Definition size {A} (v : list A) : N := N.of_nat (length v).

(** ** Zilliqa::ProcessMessage and Zilliqa::RetrieveBroadcastList *)

(** The array both functions build on their stack. *)
Definition msg_handlers : list Handler := [m_pm; m_ds; m_n; m_cu; m_lookup].

(** [sizeof(msg_handlers) / sizeof(Executable* )]. *)
Definition msg_handlers_count : N := size msg_handlers.

Section Handlers.

(** What the handlers answer: the value [Execute] returns and the list
    [GetBroadcastList] returns, for each handler and argument list. *)
Variable Execute_returns : Handler -> list byte -> N -> Peer -> bool.
Variable GetBroadcastList_returns : Handler -> byte -> Peer -> list Peer.

Definition call_Execute (h : Handler) (message : MessagePtr) (offset : N)
  : M bool :=
  emit (Execute h (address message) (first message) offset
          (second message)) ;;
  mret (Execute_returns h (first message) offset (second message)).

Definition call_GetBroadcastList (h : Handler) (ins_type : byte)
    (from : Peer) : M (list Peer) :=
  emit (GetBroadcastList h ins_type from) ;;
  mret (GetBroadcastList_returns h ins_type from).

Definition ProcessMessage (message : MessagePtr) : M unit :=
  (if MessageOffset.BODY <=? size (first message) then
     msg_type ← at_ (first message) MessageOffset.TYPE;
     if Byte.to_N msg_type <? msg_handlers_count then
       h ← subscript msg_handlers (Byte.to_N msg_type);
       result ← call_Execute h message MessageOffset.INST;
       if negb result then
         mret tt   (* To-do: Error recovery *)
       else mret tt
     else
       emit (LOG_GENERAL WARNING
               [Str "Unknown message type "; Hex (Byte.to_N msg_type)])
   else mret tt) ;;
  emit (delete (address message)).

Definition RetrieveBroadcastList (msg_type ins_type : byte) (from : Peer)
  : M (list Peer) :=
  if Byte.to_N msg_type <? msg_handlers_count then
    h ← subscript msg_handlers (Byte.to_N msg_type);
    call_GetBroadcastList h ins_type from
  else
    emit (LOG_GENERAL WARNING
            [Str "Unknown message type "; Hex (Byte.to_N msg_type)]) ;;
    mret [].

End Handlers.

(** *** Handlers that may throw

    [Execute] is foreign code: it can also leave by an exception.  The
    same function once more, with the answer of a handler being a
    value or an exception; nothing in [ProcessMessage] catches it, so
    it passes through, past the [delete]. *)
Module MayThrow.
Section ThrowingHandlers.

Variable Execute_outcome : Handler -> list byte -> N -> Peer -> Result bool.

Definition call_Execute (h : Handler) (message : MessagePtr) (offset : N)
  : M bool :=
  emit (Execute h (address message) (first message) offset
          (second message)) ;;
  match Execute_outcome h (first message) offset (second message) with
  | Ok result => mret result
  | Raise e => throw e
  end.

Definition ProcessMessage (message : MessagePtr) : M unit :=
  (if MessageOffset.BODY <=? size (first message) then
     msg_type ← at_ (first message) MessageOffset.TYPE;
     if Byte.to_N msg_type <? msg_handlers_count then
       h ← subscript msg_handlers (Byte.to_N msg_type);
       result ← call_Execute h message MessageOffset.INST;
       if negb result then
         mret tt   (* To-do: Error recovery *)
       else mret tt
     else
       emit (LOG_GENERAL WARNING
               [Str "Unknown message type "; Hex (Byte.to_N msg_type)])
   else mret tt) ;;
  emit (delete (address message)).

End ThrowingHandlers.
End MayThrow.

(** ** Zilliqa::LogSelfNodeInfo *)

(** [unsigned int] arithmetic. *)
Definition uint (n : N) : N := n mod 2 ^ 32.

(** Modelled from the spec: the hasher class [SHA2] of libCrypto/Sha2.h
    is not among the sources.  An object of the class is embedded as the
    bytes it has been fed so far; [Update (input, offset, size)] feeds
    the [size] bytes of [input] that start at [offset], and [Finalize]
    returns the digest, by the hash function the class is instantiated
    with, of all bytes fed. *)
Module SHA2.
Definition Reset : list byte := [].
Definition Update (sha2 input : list byte) (offset size : N) : list byte :=
  sha2 ++ take (N.to_nat size) (drop (N.to_nat offset) input).
Definition Finalize (digest : list byte -> list byte) (sha2 : list byte)
  : list byte := digest sha2.
End SHA2.

(** [copy(v.end() - n, v.end(), out)]: the last [n] elements of [v];
    the iterator [v.end() - n] has no meaning when [v] is shorter. *)
Definition copy_trailing (v : list byte) (n : N) : M (list byte) :=
  if n <=? size v then mret (drop (N.to_nat (size v - n)) v)
  else throw undefined_behaviour.

Section Keys.

(** The key classes of libCrypto/Schnorr.h and the constants of
    common/Constants.h are parameters: [k.Serialize(dst, offset)] is
    given by the vector [dst] holds after the call. *)
Variables PrivKey PubKey : Type.
Variable PrivKey_Serialize : PrivKey -> list byte -> N -> list byte.
Variable PubKey_Serialize : PubKey -> list byte -> N -> list byte.
Variables PRIV_KEY_SIZE PUB_KEY_SIZE : N.

(** The hash function behind [SHA2<HASH_TYPE::HASH_VARIANT_256>]. *)
Variable SHA256 : list byte -> list byte.

(** Lines 47 to 54: the address written into [toAddr]. *)
Definition LogSelfNodeInfo_toAddr (key : PrivKey * PubKey)
  : M (list byte) :=
  let sha2 := SHA2.Reset in
  let message := PubKey_Serialize (snd key) [] 0 in
  let sha2 := SHA2.Update sha2 message 0 PUB_KEY_SIZE in
  let tmp3 := SHA2.Finalize SHA256 sha2 in
  copy_trailing tmp3 ACC_ADDR_SIZE.

Definition LogSelfNodeInfo (key : PrivKey * PubKey) (peer : Peer)
  : M unit :=
  let tmp1 := PrivKey_Serialize (fst key) [] 0 in
  let tmp2 := PubKey_Serialize (snd key) [] 0 in
  emit (LOG_PAYLOAD INFO "Private Key" tmp1 (uint (PRIV_KEY_SIZE * 2))) ;;
  emit (LOG_PAYLOAD INFO "Public Key" tmp2 (uint (PUB_KEY_SIZE * 2))) ;;
  toAddr ← LogSelfNodeInfo_toAddr key;
  emit (LOG_GENERAL INFO
          [Str "My address is "; Addr toAddr; Str " and port is ";
           Num (m_listenPortHost peer)]).

(** ** Zilliqa::Zilliqa

    The body of the constructor; the member initialisers, which
    construct the collaborators before the body runs, make no call
    that this file can see.  [IS_LOOKUP_NODE] is the preprocessor
    symbol that selects the build, [StartListening_returns] the answer
    of the API server in the lookup build.  The lambda handed to
    [DetachedFunction] is the intake loop [funcCheckMsgQueue]
    below. *)
Definition Zilliqa (IS_LOOKUP_NODE StartListening_returns : bool)
    (key : PrivKey * PubKey) (peer : Peer) (loadConfig : bool)
    (syncType : N) (toRetrieveHistory : bool) : M unit :=
  emit LOG_MARKER ;;
  emit (DetachedFunction 1) ;;
  emit make_shared_Validator ;;
  emit RegisterColleagues ;;
  emit (Install syncType toRetrieveHistory) ;;
  LogSelfNodeInfo key peer ;;
  emit (SetSelfPeer peer) ;;
  (if syncType =? SyncType.NO_SYNC then
     emit (LOG_GENERAL INFO [Str "No Sync Needed"]) ;;
     emit Whitelist_Init
   else if negb IS_LOOKUP_NODE && (syncType =? SyncType.NEW_SYNC) then
     emit (LOG_GENERAL INFO [Str "Sync as a new node"]) ;;
     if negb toRetrieveHistory then
       emit (set_lookup_syncType SyncType.NEW_SYNC) ;;
       emit (set_runFromLate true) ;;
       emit (StartSynchronization m_n)
     else
       emit (LOG_GENERAL WARNING
               [Str "Error: Sync for new node shouldn't retrieve history"])
   else if negb IS_LOOKUP_NODE && (syncType =? SyncType.NORMAL_SYNC) then
     emit (LOG_GENERAL INFO [Str "Sync as a normal node"]) ;;
     emit (set_lookup_syncType SyncType.NORMAL_SYNC) ;;
     emit (set_runFromLate true) ;;
     emit (StartSynchronization m_n)
   else if negb IS_LOOKUP_NODE && (syncType =? SyncType.DS_SYNC) then
     emit (LOG_GENERAL INFO [Str "Sync as a ds node"]) ;;
     emit (set_lookup_syncType SyncType.DS_SYNC) ;;
     emit (StartSynchronization m_ds)
   else if IS_LOOKUP_NODE && (syncType =? SyncType.LOOKUP_SYNC) then
     emit (LOG_GENERAL INFO [Str "Sync as a lookup node"]) ;;
     emit (set_lookup_syncType SyncType.LOOKUP_SYNC) ;;
     emit (StartSynchronization m_lookup)
   else
     emit (LOG_GENERAL WARNING [Str "Invalid Sync Type"])) ;;
  (if negb IS_LOOKUP_NODE then
     emit (LOG_GENERAL INFO [Str "I am a normal node."])
   else
     emit (LOG_GENERAL INFO [Str "I am a lookup node."]) ;;
     emit StartListening ;;
     if StartListening_returns then
       emit (LOG_GENERAL INFO [Str "API Server started successfully"])
     else
       emit (LOG_GENERAL WARNING [Str "API Server couldn't start"])).

End Keys.

Arguments LogSelfNodeInfo_toAddr {PrivKey PubKey}.
Arguments LogSelfNodeInfo {PrivKey PubKey}.
Arguments Zilliqa {PrivKey PubKey}.

(** ** The message queue, Zilliqa::Dispatch, the intake loop, the worker
       pool and Zilliqa::~Zilliqa *)

Section Queue.

(** The capacity [m_msgQueue] is constructed with. *)
Variable MSGQUEUE_SIZE : N.

(** Modelled from the spec: the queue class behind [m_msgQueue] is not
    among the sources.  The spec describes a bounded first-in
    first-out queue: [push] fails, and changes nothing, when the queue
    is full; [pop] takes the oldest message and fails on an empty
    queue. *)
Definition push (q : list MessagePtr) (message : MessagePtr)
  : bool * list MessagePtr :=
  if size q <? MSGQUEUE_SIZE then (true, q ++ [message]) else (false, q).

Definition pop (q : list MessagePtr) : option MessagePtr * list MessagePtr :=
  match q with
  | [] => (None, [])
  | message :: q' => (Some message, q')
  end.

(** *** Dispatch on its own thread

    [while (!m_msgQueue.push(message)) {}], run for at most [fuel]
    evaluations of the loop condition.  Between two evaluations the
    other threads use the queue: [others k] is what they do to it
    before evaluation number [k].  The result is [None] while the
    loop is still spinning, and the number of the evaluation that
    succeeded with the queue it left otherwise. *)
Fixpoint Dispatch (fuel : nat)
    (others : nat -> list MessagePtr -> list MessagePtr)
    (k : nat) (q : list MessagePtr) (message : MessagePtr)
  : option (nat * list MessagePtr) :=
  match fuel with
  | O => None
  | S fuel' =>
      let '(pushed, q') := push (others k q) message in
      if negb pushed then
        (* Keep attempting to push until success *)
        Dispatch fuel' others (S k) q' message
      else Some (k, q')
  end.

(** The queue as evaluation number [k + n] of the loop condition finds
    it, when the evaluations from number [k] on, which started from
    queue [q], all failed. *)
Fixpoint found (others : nat -> list MessagePtr -> list MessagePtr)
    (k : nat) (q : list MessagePtr) (n : nat) : list MessagePtr :=
  match n with
  | O => others k q
  | S n' => others (k + n)%nat (found others k q n')
  end.

Definition full (q : list MessagePtr) : Prop := MSGQUEUE_SIZE <= size q.

(** *** The destructor on its own

    [while (m_msgQueue.pop(message)) { delete message; }], when no
    other thread touches the queue meanwhile: the loop ends when [pop]
    fails on the empty queue. *)
Fixpoint Zilliqa_destructor (q : list MessagePtr) : M unit :=
  match q with
  | [] => mret tt                    (* [pop] fails *)
  | message :: q' =>                 (* [pop] takes [message], leaves [q'] *)
      emit (delete (address message)) ;; Zilliqa_destructor q'
  end.

(** *** All threads together

    The state the threads share, and what each thread has done. *)
Record State : Type := mkState {
  (** messages whose [Dispatch] call has not returned yet *)
  dispatching : list MessagePtr;
  m_msgQueue : list MessagePtr;
  (** jobs handed to [m_queuePool.AddJob] that have not run yet; the
      job of a message is [ProcessMessage(message)] *)
  m_queuePool : list MessagePtr;
  (** the calls made by the jobs the pool has run *)
  worker_trace : list Effect;
  (** the calls made by the destructor *)
  destructor_trace : list Effect
}.

Definition initial : State := mkState [] [] [] [] [].

(** The atomic actions of the threads. *)
Inductive Action : Type :=
(** a network thread enters [Dispatch(message)] *)
| Dispatch_call (message : MessagePtr)
(** the [i]-th caller inside [Dispatch] evaluates its loop condition *)
| Dispatch_push (i : nat)
(** the intake loop evaluates [m_msgQueue.pop(message)] and, when it
    got a message, adds the job *)
| funcCheckMsgQueue_pop
(** the pool runs its [i]-th waiting job; the handler, if called,
    answers [Execute_returns] *)
| AddJob_run (i : nat)
    (Execute_returns : Handler -> list byte -> N -> Peer -> bool)
(** the same, with a handler that answers or throws as
    [Execute_outcome] says; a job that ends by an exception is over,
    and its message is in nobody's hands *)
| AddJob_run_MayThrow (i : nat)
    (Execute_outcome : Handler -> list byte -> N -> Peer -> Result bool)
(** the destructor evaluates [m_msgQueue.pop(message)] and, when it
    got a message, deletes it *)
| Destructor_pop.

(** An action that names a caller or a job that does not exist cannot
    happen: [None]. *)
Definition step (s : State) (a : Action) : option State :=
  match a with
  | Dispatch_call message =>
      Some (mkState (dispatching s ++ [message]) (m_msgQueue s)
              (m_queuePool s) (worker_trace s) (destructor_trace s))
  | Dispatch_push i =>
      message ← dispatching s !! i;
      let '(pushed, q') := push (m_msgQueue s) message in
      if negb pushed then Some s
      else Some (mkState (base.delete i (dispatching s)) q'
                   (m_queuePool s) (worker_trace s) (destructor_trace s))
  | funcCheckMsgQueue_pop =>
      match pop (m_msgQueue s) with
      | (Some message, q') =>
          Some (mkState (dispatching s) q' (m_queuePool s ++ [message])
                  (worker_trace s) (destructor_trace s))
      | (None, _) => Some s
      end
  | AddJob_run i Execute_returns =>
      message ← m_queuePool s !! i;
      Some (mkState (dispatching s) (m_msgQueue s)
              (base.delete i (m_queuePool s))
              (worker_trace s
               ++ trace (ProcessMessage Execute_returns message))
              (destructor_trace s))
  | AddJob_run_MayThrow i Execute_outcome =>
      message ← m_queuePool s !! i;
      Some (mkState (dispatching s) (m_msgQueue s)
              (base.delete i (m_queuePool s))
              (worker_trace s
               ++ trace (MayThrow.ProcessMessage Execute_outcome message))
              (destructor_trace s))
  | Destructor_pop =>
      match pop (m_msgQueue s) with
      | (Some message, q') =>
          Some (mkState (dispatching s) q' (m_queuePool s) (worker_trace s)
                  (destructor_trace s ++ [delete (address message)]))
      | (None, _) => Some s
      end
  end.

Fixpoint run (s : State) (l : list Action) : option State :=
  match l with
  | [] => Some s
  | a :: l' => s' ← step s a; run s' l'
  end.

(** The messages [Dispatch] was called with, in call order. *)
Definition dispatched (l : list Action) : list MessagePtr :=
  omap (fun a => match a with Dispatch_call m => Some m | _ => None end) l.



End Queue.

(** ** libUtils/GetTxnFromFile.h *)

(** The global [unsigned int TXN_SIZE = 317]. *)
Definition TXN_SIZE : N := 317.

(** [a - b] on [unsigned int]. *)
Definition uint_sub (a b : N) : N := uint (a + 2 ^ 32 - uint b).

(** An [fstream]: the bytes of the file it is, or was, opened on,
    whether it is open, the read position, and the two state bits the
    functions can set. *)
Record fstream : Type := mkfstream {
  file : list byte;
  is_open : bool;
  tellg : N;
  eofbit : bool;
  failbit : bool
}.

(** [f.good()]. *)
Definition good (f : fstream) : bool := negb (eofbit f) && negb (failbit f).

(** [f.seekg(off, ios::beg)]: clears [eofbit]; a stream that has failed
    stays where it is; a closed stream fails; a position past the end
    of the file is accepted. *)
Definition seekg (f : fstream) (off : N) : fstream :=
  if failbit f then mkfstream (file f) (is_open f) (tellg f) false true
  else if is_open f then mkfstream (file f) true off false false
  else mkfstream (file f) false (tellg f) false true.

(** [(unsigned char) f.get()]: the next byte; when there is none, [EOF]
    (-1, as a byte 255) with [eofbit] and [failbit] set; on a stream
    that is not good, [EOF] with [failbit] set. *)
Definition get (f : fstream) : byte * fstream :=
  if good f then
    match (if is_open f && (tellg f <? size (file f))
           then file f !! N.to_nat (tellg f) else None) with
    | Some c => (c, mkfstream (file f) (is_open f) (tellg f + 1) false false)
    | None => (xff, mkfstream (file f) (is_open f) (tellg f) true true)
    end
  else (xff, mkfstream (file f) (is_open f) (tellg f) (eofbit f) true).

(** [vec.resize(n)]. *)
Definition resize (vec : list byte) (n : N) : list byte :=
  take (N.to_nat n) vec ++ replicate (N.to_nat n - length vec) x00.

(** The [for] loop of [getTransactionsFromFile] with [n] iterations
    left, [i] the loop variable.  The function returns its [bool]; the
    stream and the vector, passed by reference, come back with it. *)
Fixpoint getTransactionsFromFile_loop (n : nat) (i : N) (f : fstream)
    (vec : list byte) : M (bool * fstream * list byte) :=
  match n with
  | O => mret (true, f, vec)
  | S n' =>
      if negb (good f) then
        emit (LOG_GENERAL WARNING [Str "Bad byte accessed"]) ;;
        mret (false, f, vec)
      else
        let '(c, f') := get f in
        getTransactionsFromFile_loop n' (i + 1) f' (<[N.to_nat i := c]> vec)
  end.

Definition getTransactionsFromFile (f : fstream) (startNum totalNum : N)
    (vec : list byte) : M (bool * fstream * list byte) :=
  let f := seekg f (uint (uint_sub startNum 1 * TXN_SIZE)) in
  let vec := resize vec (uint (TXN_SIZE * totalNum)) in
  getTransactionsFromFile_loop (N.to_nat (uint (TXN_SIZE * totalNum))) 0 f vec.

Section GetTxnFromFile.

(** [Address] and its [hex()] are declared outside the sources. *)
Variable Address : Type.
Variable hex : Address -> string.

(** [file.open(path, ios::binary | ios::in)] on the files [fs] of the
    machine: a file that is not there is not opened, and the stream
    fails. *)
Definition open (fs : gmap string (list byte)) (path : string) : fstream :=
  match fs !! path with
  | Some content => mkfstream content true 0 false false
  | None => mkfstream [] false 0 false true
  end.

(** [GetTxnFromFile::GetFromFile]; the vector [vec] comes back with the
    result. *)
Definition GetFromFile (fs : gmap string (list byte)) (addr : Address)
    (startNum totalNum : N) (vec : list byte) : M (bool * list byte) :=
  let vec : list byte := [] in
  let file :=
    open fs ("/home/kaustubh/Documents/LookupTxn/Zilliqa/txns/"
             +:+ hex addr +:+ ".zil") in
  if negb (is_open file) then
    emit (LOG_GENERAL WARNING [Str "File failed to open"]) ;;
    mret (false, vec)
  else
    r ← getTransactionsFromFile file startNum totalNum vec;
    let '(b, _, vec) := r in
    mret (b, vec).

End GetTxnFromFile.

Arguments GetFromFile {Address}.

(** ** Observations on traces *)

(** The addresses released by [delete], in order. *)
Definition deleted (t : list Effect) : list N :=
  omap (fun e => match e with delete p => Some p | _ => None end) t.

(** The handlers invoked, with the message each call was made for. *)
Definition executed (t : list Effect) : list (Handler * N) :=
  omap (fun e => match e with
                | Execute h p _ _ _ => Some (h, p)
                | _ => None
                end) t.

(** The messages for which a handler was invoked. *)
Definition executed_for (t : list Effect) : list N := snd <$> executed t.

Definition is_log (e : Effect) : bool :=
  match e with
  | LOG_MARKER | LOG_GENERAL _ _ | LOG_PAYLOAD _ _ _ _ => true
  | _ => false
  end.

(** The log a trace leaves. *)
Definition logged (t : list Effect) : list Effect := filter is_log t.

Definition is_warning (e : Effect) : bool :=
  match e with
  | LOG_GENERAL WARNING _ | LOG_PAYLOAD WARNING _ _ _ => true
  | _ => false
  end.

Definition warnings (t : list Effect) : list Effect := filter is_warning t.

(** The calls and assignments the constructor uses to start
    synchronisation. *)
Definition is_sync (e : Effect) : bool :=
  match e with
  | set_lookup_syncType _ | set_runFromLate _ | StartSynchronization _ => true
  | _ => false
  end.

Definition sync_actions (t : list Effect) : list Effect := filter is_sync t.


(** The messages that are with a caller, in the queue or with the pool,
    and the messages a handler has been called for. *)
Definition in_flight_or_executed (s : State) : list N :=
  (address <$> dispatching s) ++ (address <$> m_msgQueue s) ++
  (address <$> m_queuePool s) ++ executed_for (worker_trace s).

(** Every message the dispatcher has seen is in exactly one place: with
    a caller still inside [Dispatch], in the queue, with the pool, or
    released by a worker or by the destructor. *)
Definition accounted (s : State) : list N :=
  (address <$> dispatching s) ++ (address <$> m_msgQueue s) ++
  (address <$> m_queuePool s) ++
  deleted (worker_trace s) ++ deleted (destructor_trace s).

(** ** The embedding at work *)

Definition example_peer : Peer := mkPeer 2130706433 30303.

(** A message for the node, one that is too short, one of unknown
    type. *)
Definition example_known : MessagePtr :=
  mkMessage 4096 [x02; x00; x2a] example_peer.
Definition example_short : MessagePtr := mkMessage 8192 [x01] example_peer.
Definition example_unknown : MessagePtr :=
  mkMessage 12288 [x09; x00] example_peer.

(** Three calls of [Dispatch] on a queue of capacity 1: the second
    caller finds the queue full and has to try again; one message is
    released by the destructor, the others by workers. *)
Definition example_actions : list Action :=
  [ Dispatch_call example_known; Dispatch_call example_short;
    Dispatch_call example_unknown;
    Dispatch_push 0; Dispatch_push 0; funcCheckMsgQueue_pop;
    Dispatch_push 0; AddJob_run 0 (fun _ _ _ _ => false);
    Destructor_pop; Dispatch_push 0; funcCheckMsgQueue_pop;
    AddJob_run 0 (fun _ _ _ _ => true) ].

(** The state these actions end in. *)
Definition example_final : State :=
  Eval vm_compute in default initial (run 1 initial example_actions).



(** Keys that are their own serialisation, and a stand-in hash function
    with digests of 32 bytes, to run the functions on. *)
Definition example_Serialize (k dst : list byte) (offset : N) : list byte :=
  take (N.to_nat offset) dst ++ k.
Definition example_digest (m : list byte) : list byte :=
  take 32 (m ++ replicate 32 x00).

(** A file of two transactions, the first all 1, the second all 2, and
    a machine that has this file, and no other, for the address whose
    hexadecimal form is "00ff". *)
Definition example_file : list byte :=
  replicate 317 x01 ++ replicate 317 x02.
Definition example_hex (addr : list byte) : string := "00ff".
Definition example_fs : gmap string (list byte) :=
  {[ "/home/kaustubh/Documents/LookupTxn/Zilliqa/txns/00ff.zil"
     := example_file ]}.
Definition example_fstream : fstream :=
  mkfstream example_file true 0 false false.

Example ProcessMessage_ex1 :
  ProcessMessage (fun _ _ _ _ => false)
    (mkMessage 64 [x02; x07; xff] (mkPeer 1 30303))
  = ([Execute m_n 64 [x02; x07; xff] 1 (mkPeer 1 30303); delete 64], Ok tt).
Proof. reflexivity. Qed.

Example ProcessMessage_ex2 :
  ProcessMessage (fun _ _ _ _ => true)
    (mkMessage 64 [x09; x07] (mkPeer 1 30303))
  = ([LOG_GENERAL WARNING [Str "Unknown message type "; Hex 9]; delete 64],
     Ok tt).
Proof. reflexivity. Qed.

Example ProcessMessage_ex3 :
  ProcessMessage (fun _ _ _ _ => true) (mkMessage 64 [x01] (mkPeer 1 30303))
  = ([delete 64], Ok tt).
Proof. reflexivity. Qed.

Example RetrieveBroadcastList_ex1 :
  RetrieveBroadcastList
    (fun h _ from => match h with m_ds => [from] | _ => [] end)
    x01 x00 example_peer
  = ([GetBroadcastList m_ds x00 example_peer], Ok [example_peer]).
Proof. reflexivity. Qed.

(** The queue holds one message and has capacity 1; the intake loop
    takes that message before the third evaluation of [push]. *)
Example Dispatch_ex1 :
  Dispatch 1 5 (fun k q => if Nat.ltb k 2 then q else tail q) 0
    [example_short] example_known
  = Some (2%nat, [example_known]).
Proof. reflexivity. Qed.

(** Nobody takes anything from the full queue: the caller spins. *)
Example Dispatch_ex2 :
  Dispatch 1 3 (fun _ q => q) 0 [example_short] example_known = None.
Proof. reflexivity. Qed.

Example Zilliqa_ex1 :
  trace (Zilliqa example_Serialize example_Serialize 32 33 example_digest
           false false ([x01; x02], x03 :: replicate 32 xab) example_peer
           true SyncType.NEW_SYNC true)
  = [LOG_MARKER; DetachedFunction 1; make_shared_Validator;
     RegisterColleagues; Install 1 true;
     LOG_PAYLOAD INFO "Private Key" [x01; x02] 64;
     LOG_PAYLOAD INFO "Public Key" (x03 :: replicate 32 xab) 66;
     LOG_GENERAL INFO
       [Str "My address is "; Addr (replicate 20 xab);
        Str " and port is "; Num 30303];
     SetSelfPeer example_peer;
     LOG_GENERAL INFO [Str "Sync as a new node"];
     LOG_GENERAL WARNING
       [Str "Error: Sync for new node shouldn't retrieve history"];
     LOG_GENERAL INFO [Str "I am a normal node."]].
Proof. vm_compute. reflexivity. Qed.

Example example_final_ex :
  worker_trace example_final
  = [Execute m_n 4096 [x02; x00; x2a] 1 example_peer; delete 4096;
     LOG_GENERAL WARNING [Str "Unknown message type "; Hex 9];
     delete 12288]
  /\ destructor_trace example_final = [delete 8192].
Proof. split; reflexivity. Qed.

(** ** Properties of ProcessMessage and RetrieveBroadcastList *)

Section Dispatching.

Variable Execute_returns : Handler -> list byte -> N -> Peer -> bool.
Variable GetBroadcastList_returns : Handler -> byte -> Peer -> list Peer.

(** A buffer of at least [BODY] bytes has a type tag. *)
Lemma at_TYPE (v : list byte) :
  MessageOffset.BODY <= size v ->
  exists msg_type, v !! N.to_nat MessageOffset.TYPE = Some msg_type.
Proof.
  unfold size, MessageOffset.BODY, MessageOffset.TYPE. intros Hlen.
  apply lookup_lt_is_Some. lia.
Qed.

(** A tag below the handler count indexes the array. *)
Lemma subscript_msg_handlers (msg_type : byte) :
  Byte.to_N msg_type < msg_handlers_count ->
  exists h, msg_handlers !! N.to_nat (Byte.to_N msg_type) = Some h.
Proof.
  unfold msg_handlers_count, size. intros Hlt.
  apply lookup_lt_is_Some. lia.
Qed.

Lemma ProcessMessage_short (message : MessagePtr) :
  size (first message) < MessageOffset.BODY ->
  ProcessMessage Execute_returns message
  = ([delete (address message)], Ok tt).
Proof.
  intros Hlen. unfold ProcessMessage.
  apply N.leb_gt in Hlen. rewrite Hlen. reflexivity.
Qed.

Lemma ProcessMessage_known (message : MessagePtr) (msg_type : byte)
    (h : Handler) :
  MessageOffset.BODY <= size (first message) ->
  first message !! N.to_nat MessageOffset.TYPE = Some msg_type ->
  msg_handlers !! N.to_nat (Byte.to_N msg_type) = Some h ->
  ProcessMessage Execute_returns message
  = ([Execute h (address message) (first message) MessageOffset.INST
        (second message);
      delete (address message)], Ok tt).
Proof.
  intros Hlen Htype Hh. unfold ProcessMessage, at_, subscript.
  apply N.leb_le in Hlen. rewrite Hlen, Htype. cbn.
  assert (Hlt : (Byte.to_N msg_type <? msg_handlers_count) = true).
  { apply N.ltb_lt. apply lookup_lt_Some in Hh.
    unfold msg_handlers_count, size. lia. }
  rewrite Hlt, Hh. cbn.
  destruct (Execute_returns _ _ _ _); reflexivity.
Qed.

Lemma ProcessMessage_unknown (message : MessagePtr) (msg_type : byte) :
  MessageOffset.BODY <= size (first message) ->
  first message !! N.to_nat MessageOffset.TYPE = Some msg_type ->
  msg_handlers_count <= Byte.to_N msg_type ->
  ProcessMessage Execute_returns message
  = ([LOG_GENERAL WARNING
        [Str "Unknown message type "; Hex (Byte.to_N msg_type)];
      delete (address message)], Ok tt).
Proof.
  intros Hlen Htype Hge. unfold ProcessMessage, at_.
  apply N.leb_le in Hlen. rewrite Hlen, Htype. cbn.
  apply N.ltb_ge in Hge. rewrite Hge. reflexivity.
Qed.

End Dispatching.

(** C1: a message of at least [BODY] bytes whose type tag is below the
    handler count 5 makes [ProcessMessage] call [Execute] exactly once,
    on the handler at index = type tag of the array (peer manager,
    directory service, node, consensus user, lookup), with the message
    buffer, the offset [INST] just after the type tag and the sender;
    the only other call is the [delete] of the message, and no
    exception is raised. *)
Theorem C1_ProcessMessage_routes_by_type_tag
    (Execute_returns : Handler -> list byte -> N -> Peer -> bool)
    (message : MessagePtr) (msg_type : byte) :
  MessageOffset.BODY <= size (first message) ->
  first message !! N.to_nat MessageOffset.TYPE = Some msg_type ->
  Byte.to_N msg_type < 5 ->
  msg_handlers = [m_pm; m_ds; m_n; m_cu; m_lookup] /\
  exists h,
    msg_handlers !! N.to_nat (Byte.to_N msg_type) = Some h /\
    ProcessMessage Execute_returns message
    = ([Execute h (address message) (first message) MessageOffset.INST
          (second message);
        delete (address message)], Ok tt) /\
    executed (trace (ProcessMessage Execute_returns message))
    = [(h, address message)].
Proof.
  intros Hlen Htype Hlt. split; [reflexivity|].
  destruct (subscript_msg_handlers msg_type Hlt) as [h Hh].
  exists h. split; [exact Hh|].
  rewrite (ProcessMessage_known Execute_returns message msg_type h
             Hlen Htype Hh).
  split; reflexivity.
Qed.

Lemma C1_witness :
  msg_handlers = [m_pm; m_ds; m_n; m_cu; m_lookup] /\
  exists h,
    msg_handlers !! N.to_nat (Byte.to_N x03) = Some h /\
    ProcessMessage (fun _ _ _ _ => true)
      (mkMessage 4096 [x03; x00; x2a] (mkPeer 2130706433 30303))
    = ([Execute h 4096 [x03; x00; x2a] MessageOffset.INST
          (mkPeer 2130706433 30303);
        delete 4096], Ok tt) /\
    executed (trace (ProcessMessage (fun _ _ _ _ => true)
                (mkMessage 4096 [x03; x00; x2a] (mkPeer 2130706433 30303))))
    = [(h, 4096)].
Proof.
  apply (C1_ProcessMessage_routes_by_type_tag (fun _ _ _ _ => true)
           (mkMessage 4096 [x03; x00; x2a] (mkPeer 2130706433 30303)) x03).
  - vm_compute. discriminate.
  - reflexivity.
  - reflexivity.
Defined.

(** C2, as stated, fails: a one byte message is discarded and deleted,
    but nothing is logged. *)
Lemma C2_counterexample :
  ~ (forall (Execute_returns : Handler -> list byte -> N -> Peer -> bool)
            (message : MessagePtr),
       size (first message) < MessageOffset.BODY ->
       executed (trace (ProcessMessage Execute_returns message)) = [] /\
       deleted (trace (ProcessMessage Execute_returns message))
       = [address message] /\
       warnings (trace (ProcessMessage Execute_returns message)) <> []).
Proof.
  intros H.
  destruct (H (fun _ _ _ _ => true) (mkMessage 4096 [x01] (mkPeer 1 30303)))
    as (_ & _ & Hwarn).
  - reflexivity.
  - apply Hwarn. reflexivity.
Qed.

(** C2, amended: a message shorter than [BODY] makes [ProcessMessage]
    call no handler and delete the message exactly once, without an
    exception; the discard is silent, nothing is logged. *)
Theorem C2_ProcessMessage_short_message_silently_discarded
    (Execute_returns : Handler -> list byte -> N -> Peer -> bool)
    (message : MessagePtr) :
  size (first message) < MessageOffset.BODY ->
  ProcessMessage Execute_returns message
  = ([delete (address message)], Ok tt) /\
  executed (trace (ProcessMessage Execute_returns message)) = [] /\
  deleted (trace (ProcessMessage Execute_returns message))
  = [address message] /\
  logged (trace (ProcessMessage Execute_returns message)) = [].
Proof.
  intros Hlen. rewrite (ProcessMessage_short Execute_returns message Hlen).
  repeat split; reflexivity.
Qed.

Lemma C2_witness :
  ProcessMessage (fun _ _ _ _ => true) (mkMessage 4096 [x01] (mkPeer 1 30303))
  = ([delete 4096], Ok tt) /\
  executed (trace (ProcessMessage (fun _ _ _ _ => true)
              (mkMessage 4096 [x01] (mkPeer 1 30303)))) = [] /\
  deleted (trace (ProcessMessage (fun _ _ _ _ => true)
             (mkMessage 4096 [x01] (mkPeer 1 30303)))) = [4096] /\
  logged (trace (ProcessMessage (fun _ _ _ _ => true)
            (mkMessage 4096 [x01] (mkPeer 1 30303)))) = [].
Proof.
  apply (C2_ProcessMessage_short_message_silently_discarded
           (fun _ _ _ _ => true) (mkMessage 4096 [x01] (mkPeer 1 30303))).
  reflexivity.
Defined.

(** C3: for a type tag of 5 or more, [ProcessMessage] (on a message
    long enough to carry a tag) calls no handler, logs the warning
    "Unknown message type" with the tag and deletes the message, and
    [RetrieveBroadcastList] calls no handler, logs the same warning and
    returns the empty list; neither raises an exception. *)
Theorem C3_unknown_type_tag
    (Execute_returns : Handler -> list byte -> N -> Peer -> bool)
    (GetBroadcastList_returns : Handler -> byte -> Peer -> list Peer)
    (msg_type ins_type : byte) (from : Peer) :
  5 <= Byte.to_N msg_type ->
  (forall message : MessagePtr,
     MessageOffset.BODY <= size (first message) ->
     first message !! N.to_nat MessageOffset.TYPE = Some msg_type ->
     ProcessMessage Execute_returns message
     = ([LOG_GENERAL WARNING
           [Str "Unknown message type "; Hex (Byte.to_N msg_type)];
         delete (address message)], Ok tt)) /\
  RetrieveBroadcastList GetBroadcastList_returns msg_type ins_type from
  = ([LOG_GENERAL WARNING
        [Str "Unknown message type "; Hex (Byte.to_N msg_type)]], Ok []).
Proof.
  intros Hge. split.
  - intros message Hlen Htype.
    apply ProcessMessage_unknown; assumption.
  - unfold RetrieveBroadcastList.
    apply N.ltb_ge in Hge. change msg_handlers_count with 5.
    rewrite Hge. reflexivity.
Qed.

Lemma C3_witness :
  (forall message : MessagePtr,
     MessageOffset.BODY <= size (first message) ->
     first message !! N.to_nat MessageOffset.TYPE = Some x05 ->
     ProcessMessage (fun _ _ _ _ => true) message
     = ([LOG_GENERAL WARNING
           [Str "Unknown message type "; Hex (Byte.to_N x05)];
         delete (address message)], Ok tt)) /\
  RetrieveBroadcastList (fun _ _ _ => [mkPeer 1 30303]) x05 x00 (mkPeer 2 30304)
  = ([LOG_GENERAL WARNING
        [Str "Unknown message type "; Hex (Byte.to_N x05)]], Ok []).
Proof.
  apply (C3_unknown_type_tag (fun _ _ _ _ => true)
           (fun _ _ _ => [mkPeer 1 30303]) x05 x00 (mkPeer 2 30304)).
  vm_compute. discriminate.
Defined.

(** C3, as stated, fails for [ProcessMessage]: a one byte message whose
    only byte is 9 has a type tag of 5 or more, and is discarded
    without a word, because the tag is never read. *)
Lemma C3_counterexample :
  ~ (forall (Execute_returns : Handler -> list byte -> N -> Peer -> bool)
            (message : MessagePtr) (msg_type : byte),
       first message !! N.to_nat MessageOffset.TYPE = Some msg_type ->
       5 <= Byte.to_N msg_type ->
       executed (trace (ProcessMessage Execute_returns message)) = [] /\
       warnings (trace (ProcessMessage Execute_returns message)) <> [] /\
       deleted (trace (ProcessMessage Execute_returns message))
       = [address message]).
Proof.
  intros H.
  destruct (H (fun _ _ _ _ => true) (mkMessage 4096 [x09] example_peer) x09)
    as (_ & Hwarn & _).
  - reflexivity.
  - vm_compute. discriminate.
  - apply Hwarn. reflexivity.
Qed.

(** ** Every run of ProcessMessage ends in the one delete *)

Lemma ProcessMessage_cases
    (Execute_returns : Handler -> list byte -> N -> Peer -> bool)
    (message : MessagePtr) :
  ProcessMessage Execute_returns message
  = ([delete (address message)], Ok tt)
  \/ (exists msg_type,
        ProcessMessage Execute_returns message
        = ([LOG_GENERAL WARNING
              [Str "Unknown message type "; Hex (Byte.to_N msg_type)];
            delete (address message)], Ok tt))
  \/ (exists h,
        ProcessMessage Execute_returns message
        = ([Execute h (address message) (first message) MessageOffset.INST
              (second message);
            delete (address message)], Ok tt)).
Proof.
  destruct (N.lt_ge_cases (size (first message)) MessageOffset.BODY)
    as [Hshort | Hlen].
  - left. apply ProcessMessage_short, Hshort.
  - right. destruct (at_TYPE (first message) Hlen) as [msg_type Htype].
    destruct (N.lt_ge_cases (Byte.to_N msg_type) msg_handlers_count)
      as [Hlt | Hge].
    + right. destruct (subscript_msg_handlers msg_type Hlt) as [h Hh].
      exists h. eapply ProcessMessage_known; eassumption.
    + left. exists msg_type. apply ProcessMessage_unknown; assumption.
Qed.

Lemma ProcessMessage_deleted
    (Execute_returns : Handler -> list byte -> N -> Peer -> bool)
    (message : MessagePtr) :
  deleted (trace (ProcessMessage Execute_returns message))
  = [address message].
Proof.
  destruct (ProcessMessage_cases Execute_returns message)
    as [-> | [[b ->] | [h ->]]]; reflexivity.
Qed.

Lemma ProcessMessage_executed_for
    (Execute_returns : Handler -> list byte -> N -> Peer -> bool)
    (message : MessagePtr) :
  executed_for (trace (ProcessMessage Execute_returns message))
  ⊆+ [address message].
Proof.
  destruct (ProcessMessage_cases Execute_returns message)
    as [-> | [[b ->] | [h ->]]]; cbn.
  - apply submseteq_nil_l.
  - apply submseteq_nil_l.
  - reflexivity.
Qed.

(** ** Handlers that throw *)

(** With handlers that return, the function is the one above. *)
Lemma ProcessMessage_MayThrow
    (Execute_returns : Handler -> list byte -> N -> Peer -> bool)
    (message : MessagePtr) :
  ProcessMessage Execute_returns message
  = MayThrow.ProcessMessage
      (fun h m offset from => Ok (Execute_returns h m offset from)) message.
Proof. reflexivity. Qed.

(** Either the handler, if one was called, returned, and the run is a
    run with handlers that return; or it threw, and the exception went
    through [ProcessMessage], past the [delete]. *)
Lemma MayThrow_ProcessMessage_cases
    (Execute_outcome : Handler -> list byte -> N -> Peer -> Result bool)
    (message : MessagePtr) :
  (exists Execute_returns : Handler -> list byte -> N -> Peer -> bool,
     MayThrow.ProcessMessage Execute_outcome message
     = ProcessMessage Execute_returns message)
  \/ (exists (h : Handler) (e : Exception),
        Execute_outcome h (first message) MessageOffset.INST (second message)
        = Raise e /\
        MayThrow.ProcessMessage Execute_outcome message
        = ([Execute h (address message) (first message) MessageOffset.INST
              (second message)], Raise e)).
Proof.
  destruct (N.lt_ge_cases (size (first message)) MessageOffset.BODY)
    as [Hshort | Hlen].
  - left. exists (fun _ _ _ _ => true).
    rewrite (ProcessMessage_short _ message Hshort).
    unfold MayThrow.ProcessMessage.
    apply N.leb_gt in Hshort. rewrite Hshort. reflexivity.
  - destruct (at_TYPE (first message) Hlen) as [msg_type Htype].
    destruct (N.lt_ge_cases (Byte.to_N msg_type) msg_handlers_count)
      as [Hlt | Hge].
    + destruct (subscript_msg_handlers msg_type Hlt) as [h Hh].
      assert (Hrun :
        MayThrow.ProcessMessage Execute_outcome message
        = match Execute_outcome h (first message) MessageOffset.INST
                  (second message) with
          | Ok _ =>
              ([Execute h (address message) (first message)
                  MessageOffset.INST (second message);
                delete (address message)], Ok tt)
          | Raise e =>
              ([Execute h (address message) (first message)
                  MessageOffset.INST (second message)], Raise e)
          end).
      { unfold MayThrow.ProcessMessage, MayThrow.call_Execute, at_, subscript.
        apply N.leb_le in Hlen. apply N.ltb_lt in Hlt.
        rewrite Hlen, Htype. cbn. rewrite Hlt, Hh. cbn.
        destruct (Execute_outcome h (first message) MessageOffset.INST
                    (second message)) as [[] | e]; reflexivity. }
      destruct (Execute_outcome h (first message) MessageOffset.INST
                  (second message)) as [b | e] eqn:Hout.
      * left. exists (fun _ _ _ _ => b).
        rewrite (ProcessMessage_known _ message msg_type h Hlen Htype Hh).
        exact Hrun.
      * right. exists h, e. split; [exact Hout | exact Hrun].
    + left. exists (fun _ _ _ _ => true).
      rewrite (ProcessMessage_unknown _ message msg_type Hlen Htype Hge).
      unfold MayThrow.ProcessMessage, at_.
      apply N.leb_le in Hlen. apply N.ltb_ge in Hge.
      rewrite Hlen, Htype. cbn. rewrite Hge. reflexivity.
Qed.


Lemma MayThrow_ProcessMessage_deleted
    (Execute_outcome : Handler -> list byte -> N -> Peer -> Result bool)
    (message : MessagePtr) :
  deleted (trace (MayThrow.ProcessMessage Execute_outcome message))
  ⊆+ [address message].
Proof.
  destruct (MayThrow_ProcessMessage_cases Execute_outcome message)
    as [[exec ->] | (h & e & _ & ->)].
  - rewrite ProcessMessage_deleted. reflexivity.
  - apply submseteq_nil_l.
Qed.

Lemma MayThrow_ProcessMessage_executed_for
    (Execute_outcome : Handler -> list byte -> N -> Peer -> Result bool)
    (message : MessagePtr) :
  executed_for (trace (MayThrow.ProcessMessage Execute_outcome message))
  ⊆+ [address message].
Proof.
  destruct (MayThrow_ProcessMessage_cases Execute_outcome message)
    as [[exec ->] | (h & e & _ & ->)].
  - apply ProcessMessage_executed_for.
  - reflexivity.
Qed.

(** C6: when [Execute] returns false the dispatcher does what it does
    when [Execute] returns true: one call of [Execute], no second call
    and no other action, then the one [delete] of the message; the
    state the job leaves the dispatcher in is the same in both cases. *)
Theorem C6_Execute_failure_changes_nothing
    (MSGQUEUE_SIZE : N)
    (Execute_fails Execute_succeeds : Handler -> list byte -> N -> Peer -> bool)
    (message : MessagePtr) (msg_type : byte) (h : Handler) :
  MessageOffset.BODY <= size (first message) ->
  first message !! N.to_nat MessageOffset.TYPE = Some msg_type ->
  msg_handlers !! N.to_nat (Byte.to_N msg_type) = Some h ->
  Execute_fails h (first message) MessageOffset.INST (second message)
  = false ->
  Execute_succeeds h (first message) MessageOffset.INST (second message)
  = true ->
  ProcessMessage Execute_fails message
  = ([Execute h (address message) (first message) MessageOffset.INST
        (second message);
      delete (address message)], Ok tt) /\
  ProcessMessage Execute_fails message
  = ProcessMessage Execute_succeeds message /\
  forall (s : State) (i : nat),
    m_queuePool s !! i = Some message ->
    step MSGQUEUE_SIZE s (AddJob_run i Execute_fails)
    = step MSGQUEUE_SIZE s (AddJob_run i Execute_succeeds).
Proof.
  intros Hlen Htype Hh _ _.
  pose proof (ProcessMessage_known Execute_fails message msg_type h
                Hlen Htype Hh) as Hf.
  pose proof (ProcessMessage_known Execute_succeeds message msg_type h
                Hlen Htype Hh) as Hs.
  split; [exact Hf|]. split; [congruence|].
  intros s i Hi. cbn. rewrite Hi. cbn. rewrite Hf, Hs. reflexivity.
Qed.

Lemma C6_witness :
  ProcessMessage (fun _ _ _ _ => false)
    (mkMessage 4096 [x02; x00; x2a] (mkPeer 1 30303))
  = ([Execute m_n 4096 [x02; x00; x2a] MessageOffset.INST (mkPeer 1 30303);
      delete 4096], Ok tt) /\
  ProcessMessage (fun _ _ _ _ => false)
    (mkMessage 4096 [x02; x00; x2a] (mkPeer 1 30303))
  = ProcessMessage (fun _ _ _ _ => true)
      (mkMessage 4096 [x02; x00; x2a] (mkPeer 1 30303)) /\
  forall (s : State) (i : nat),
    m_queuePool s !! i
    = Some (mkMessage 4096 [x02; x00; x2a] (mkPeer 1 30303)) ->
    step 8 s (AddJob_run i (fun _ _ _ _ => false))
    = step 8 s (AddJob_run i (fun _ _ _ _ => true)).
Proof.
  apply (C6_Execute_failure_changes_nothing 8
           (fun _ _ _ _ => false) (fun _ _ _ _ => true)
           (mkMessage 4096 [x02; x00; x2a] (mkPeer 1 30303)) x02 m_n).
  - vm_compute. discriminate.
  - reflexivity.
  - reflexivity.
  - reflexivity.
  - reflexivity.
Defined.

(** ** The loop of Dispatch *)

Section DispatchLoop.

Variable MSGQUEUE_SIZE : N.
Variable others : nat -> list MessagePtr -> list MessagePtr.
Variable message : MessagePtr.

Lemma push_full (q : list MessagePtr) :
  full MSGQUEUE_SIZE q -> push MSGQUEUE_SIZE q message = (false, q).
Proof.
  unfold full, push. intros Hfull.
  apply N.ltb_ge in Hfull. rewrite Hfull. reflexivity.
Qed.

Lemma push_room (q : list MessagePtr) :
  ~ full MSGQUEUE_SIZE q ->
  push MSGQUEUE_SIZE q message = (true, q ++ [message]).
Proof.
  unfold full, push. intros Hroom.
  apply N.nle_gt, N.ltb_lt in Hroom. rewrite Hroom. reflexivity.
Qed.

Lemma full_dec (q : list MessagePtr) :
  full MSGQUEUE_SIZE q \/ ~ full MSGQUEUE_SIZE q.
Proof.
  unfold full. destruct (N.leb_spec MSGQUEUE_SIZE (size q)) as [H | H].
  - left. exact H.
  - right. lia.
Qed.

Lemma found_S (k : nat) (q : list MessagePtr) (n : nat) :
  found others k q (S n) = found others (S k) (others k q) n.
Proof.
  induction n as [|n IH].
  - cbn. f_equal. lia.
  - change (found others k q (S (S n)))
      with (others (k + S (S n))%nat (found others k q (S n))).
    rewrite IH. cbn [found]. f_equal. lia.
Qed.

Lemma Dispatch_spec (fuel : nat) :
  forall (k : nat) (q : list MessagePtr),
    match Dispatch MSGQUEUE_SIZE fuel others k q message with
    | Some (j, q') =>
        exists n : nat,
          j = (k + n)%nat /\ (n < fuel)%nat /\
          (forall i : nat,
             (i < n)%nat -> full MSGQUEUE_SIZE (found others k q i)) /\
          ~ full MSGQUEUE_SIZE (found others k q n) /\
          q' = found others k q n ++ [message]
    | None =>
        forall i : nat,
          (i < fuel)%nat -> full MSGQUEUE_SIZE (found others k q i)
    end.
Proof.
  induction fuel as [|fuel IH]; intros k q.
  - cbn. intros i Hi. lia.
  - cbn [Dispatch].
    destruct (full_dec (others k q)) as [Hfull | Hroom].
    + rewrite (push_full _ Hfull). cbn [negb].
      specialize (IH (S k) (others k q)).
      destruct (Dispatch MSGQUEUE_SIZE fuel others (S k) (others k q) message)
        as [[j q']|].
      * destruct IH as (n & Hj & Hn & Hbefore & Hnow & Hq).
        exists (S n). rewrite found_S.
        repeat split; [lia | lia | | assumption | assumption].
        intros [|i] Hi; [exact Hfull|].
        rewrite found_S. apply Hbefore. lia.
      * intros [|i] Hi; [exact Hfull|].
        rewrite found_S. apply IH. lia.
    + rewrite (push_room _ Hroom). cbn [negb].
      exists O. repeat split; [lia | lia | | exact Hroom].
      intros i Hi. lia.
Qed.

End DispatchLoop.

(** C8: [Dispatch] evaluates [push] again and again until one
    evaluation succeeds.  When it returns, every earlier evaluation
    found the queue full and changed nothing, and the last one put the
    message at the back of the queue; as long as the queue is found
    full the call does not return (the caller is stalled and still
    holds the message); and as soon as one evaluation finds room, the
    call returns, given the fuel to get there. *)
Theorem C8_Dispatch_pushes_until_success
    (MSGQUEUE_SIZE : N) (others : nat -> list MessagePtr -> list MessagePtr)
    (q : list MessagePtr) (message : MessagePtr) (fuel : nat) :
  match Dispatch MSGQUEUE_SIZE fuel others 0 q message with
  | Some (n, q') =>
      (n < fuel)%nat /\
      (forall i : nat,
         (i < n)%nat -> full MSGQUEUE_SIZE (found others 0 q i)) /\
      ~ full MSGQUEUE_SIZE (found others 0 q n) /\
      q' = found others 0 q n ++ [message]
  | None =>
      forall i : nat,
        (i < fuel)%nat -> full MSGQUEUE_SIZE (found others 0 q i)
  end /\
  forall n : nat,
    (n < fuel)%nat -> ~ full MSGQUEUE_SIZE (found others 0 q n) ->
    exists (j : nat) (q' : list MessagePtr),
      (j <= n)%nat /\
      Dispatch MSGQUEUE_SIZE fuel others 0 q message = Some (j, q') /\
      last q' = Some message.
Proof.
  pose proof (Dispatch_spec MSGQUEUE_SIZE others message fuel 0%nat q) as H.
  destruct (Dispatch MSGQUEUE_SIZE fuel others 0 q message) as [[j q']|].
  - destruct H as (n & -> & Hn & Hbefore & Hnow & ->). cbn [Nat.add].
    split; [repeat split; assumption|].
    intros m Hm Hroom. exists n, (found others 0 q n ++ [message]).
    split; [|split; [reflexivity | apply last_snoc]].
    destruct (Nat.le_gt_cases n m) as [Hle | Hgt]; [exact Hle|].
    exfalso. apply Hroom, Hbefore, Hgt.
  - split; [exact H|].
    intros n Hn Hroom. exfalso. apply Hroom, H, Hn.
Qed.

(** ** Traces of sequenced computations *)

Lemma trace_bind {A B} (m : M A) (k : A -> M B) :
  trace (m ≫= k)
  = trace m ++ match result m with Ok a => trace (k a) | Raise _ => [] end.
Proof.
  destruct m as [t [a | e]]; cbn.
  - destruct (k a) as [t' r]. reflexivity.
  - rewrite app_nil_r. reflexivity.
Qed.

Lemma trace_emit_bind {B} (e : Effect) (k : unit -> M B) :
  trace (emit e ≫= k) = e :: trace (k tt).
Proof. rewrite trace_bind. reflexivity. Qed.

Lemma logged_app (t1 t2 : list Effect) :
  logged (t1 ++ t2) = logged t1 ++ logged t2.
Proof. apply filter_app. Qed.

(** The iterations of the destructor, taken together, are the loop of
    the destructor: they empty the queue and delete what was in it,
    passing nothing on to the pool. *)
Lemma run_Destructor_pop (MSGQUEUE_SIZE : N) (q d p : list MessagePtr) :
  forall wt dt : list Effect,
    run MSGQUEUE_SIZE (mkState d q p wt dt)
      (replicate (length q) Destructor_pop)
    = Some (mkState d [] p wt (dt ++ trace (Zilliqa_destructor q))).
Proof.
  induction q as [|message q IH]; intros wt dt.
  - cbn. rewrite app_nil_r. reflexivity.
  - cbn [length replicate run step pop m_msgQueue dispatching m_queuePool
         worker_trace destructor_trace mbind option_bind].
    rewrite IH. cbn [Zilliqa_destructor pop].
    rewrite trace_emit_bind, <- app_assoc. reflexivity.
Qed.

Lemma Zilliqa_destructor_trace (q : list MessagePtr) :
  Zilliqa_destructor q = (delete <$> (address <$> q), Ok tt).
Proof.
  induction q as [|message q IH]; [reflexivity|].
  cbn [Zilliqa_destructor pop]. rewrite IH. reflexivity.
Qed.

(** ** Ownership of messages across the threads *)

Lemma deleted_app (t1 t2 : list Effect) :
  deleted (t1 ++ t2) = deleted t1 ++ deleted t2.
Proof. apply omap_app. Qed.

Lemma executed_for_app (t1 t2 : list Effect) :
  executed_for (t1 ++ t2) = executed_for t1 ++ executed_for t2.
Proof. unfold executed_for, executed. rewrite omap_app. apply fmap_app. Qed.




Section Ownership.

Variable MSGQUEUE_SIZE : N.




Lemma dispatched_cons (a : Action) (l : list Action) :
  dispatched (a :: l) = dispatched [a] ++ dispatched l.
Proof. apply (omap_app _ [a] l). Qed.


(** Whether handlers throw or not, an action never makes up a
    message: what is accounted for, and what is in flight or was
    handed to a handler, comes from the messages dispatched. *)
#[local] Arguments executed_for : simpl never.

Lemma step_no_more (s s' : State) (a : Action) :
  step MSGQUEUE_SIZE s a = Some s' ->
  accounted s' ⊆+ accounted s ++ (address <$> dispatched [a]) /\
  in_flight_or_executed s'
  ⊆+ in_flight_or_executed s ++ (address <$> dispatched [a]).
Proof.
  destruct s as [d q p wt dt]. unfold accounted, in_flight_or_executed.
  destruct a as [m | i | | i Execute_returns | i Execute_outcome | ]; cbn.
  - intros [= <-]. cbn. rewrite fmap_app. cbn.
    split; solve_submseteq.
  - destruct (d !! i) as [m|] eqn:Hi; cbn; [|discriminate].
    unfold push. destruct (size q <? MSGQUEUE_SIZE).
    + intros [= <-]. cbn. rewrite fmap_app. cbn.
      rewrite (delete_Permutation d i m Hi) at 2 4. cbn.
      split; solve_submseteq.
    + intros [= <-]. cbn. rewrite !app_nil_r. split; reflexivity.
  - destruct q as [|m q]; intros [= <-]; cbn.
    + rewrite !app_nil_r. split; reflexivity.
    + rewrite fmap_app. cbn. split; solve_submseteq.
  - destruct (p !! i) as [m|] eqn:Hi; cbn; [|discriminate].
    intros [= <-]. cbn. rewrite !app_nil_r.
    rewrite deleted_app, executed_for_app, ProcessMessage_deleted.
    split.
    + rewrite (delete_Permutation p i m Hi) at 2. cbn. solve_submseteq.
    + transitivity ((address <$> d) ++ (address <$> q)
                    ++ (address <$> base.delete i p)
                    ++ executed_for wt ++ [address m]).
      * do 4 (apply submseteq_app; [reflexivity|]).
        apply ProcessMessage_executed_for.
      * rewrite (delete_Permutation p i m Hi) at 2. cbn. solve_submseteq.
  - destruct (p !! i) as [m|] eqn:Hi; cbn; [|discriminate].
    intros [= <-]. cbn. rewrite !app_nil_r.
    rewrite deleted_app, executed_for_app.
    split.
    + transitivity ((address <$> d) ++ (address <$> q)
                    ++ (address <$> base.delete i p)
                    ++ (deleted wt ++ [address m]) ++ deleted dt).
      * do 3 (apply submseteq_app; [reflexivity|]).
        apply submseteq_app; [|reflexivity].
        apply submseteq_app; [reflexivity|].
        apply MayThrow_ProcessMessage_deleted.
      * rewrite (delete_Permutation p i m Hi) at 2. cbn. solve_submseteq.
    + transitivity ((address <$> d) ++ (address <$> q)
                    ++ (address <$> base.delete i p)
                    ++ executed_for wt ++ [address m]).
      * do 4 (apply submseteq_app; [reflexivity|]).
        apply MayThrow_ProcessMessage_executed_for.
      * rewrite (delete_Permutation p i m Hi) at 2. cbn. solve_submseteq.
  - destruct q as [|m q]; intros [= <-]; cbn.
    + rewrite !app_nil_r. split; reflexivity.
    + rewrite deleted_app. cbn. split; solve_submseteq.
Qed.

Lemma run_no_more (l : list Action) :
  forall s s' : State,
    run MSGQUEUE_SIZE s l = Some s' ->
    accounted s' ⊆+ accounted s ++ (address <$> dispatched l) /\
    in_flight_or_executed s'
    ⊆+ in_flight_or_executed s ++ (address <$> dispatched l).
Proof.
  induction l as [|a l IH]; intros s s'; cbn [run].
  - intros [= <-]. cbn. rewrite !app_nil_r. split; reflexivity.
  - rewrite dispatched_cons.
    destruct (step MSGQUEUE_SIZE s a) as [s1|] eqn:Hstep;
      cbn [mbind option_bind]; [|discriminate].
    intros Hrun. destruct (IH s1 s' Hrun) as (Hacc & Hfly).
    destruct (step_no_more s s1 a Hstep) as (Hacc1 & Hfly1).
    rewrite fmap_app, !app_assoc. split.
    + rewrite Hacc. apply submseteq_app; [exact Hacc1 | reflexivity].
    + rewrite Hfly. apply submseteq_app; [exact Hfly1 | reflexivity].
Qed.

End Ownership.




(** ** Properties of LogSelfNodeInfo and of the constructor *)

Section Identity.

Variables PrivKey PubKey : Type.
Variable PrivKey_Serialize : PrivKey -> list byte -> N -> list byte.
Variable PubKey_Serialize : PubKey -> list byte -> N -> list byte.
Variables PRIV_KEY_SIZE PUB_KEY_SIZE : N.
Variable SHA256 : list byte -> list byte.

(** A SHA-256 digest has 32 bytes. *)
Hypothesis SHA256_size : forall m : list byte, size (SHA256 m) = 32.

Lemma copy_trailing_SHA256 (m : list byte) :
  copy_trailing (SHA256 m) ACC_ADDR_SIZE
  = ([], Ok (drop (length (SHA256 m) - N.to_nat ACC_ADDR_SIZE) (SHA256 m))).
Proof.
  unfold copy_trailing. rewrite SHA256_size. cbn.
  pose proof (SHA256_size m) as Hsize. unfold size in Hsize.
  replace (length (SHA256 m)) with 32%nat by lia. reflexivity.
Qed.

Lemma SHA2_Update_whole (message : list byte) (n : N) :
  size message = n ->
  SHA2.Update SHA2.Reset message 0 n = message.
Proof.
  unfold SHA2.Update, SHA2.Reset, size. intros <-.
  cbn. rewrite Nat2N.id. apply firstn_all.
Qed.

Lemma LogSelfNodeInfo_toAddr_eq (key : PrivKey * PubKey) :
  size (PubKey_Serialize (snd key) [] 0) = PUB_KEY_SIZE ->
  LogSelfNodeInfo_toAddr PubKey_Serialize PUB_KEY_SIZE SHA256 key
  = ([], Ok (drop (length (SHA256 (PubKey_Serialize (snd key) [] 0))
                   - N.to_nat ACC_ADDR_SIZE)
               (SHA256 (PubKey_Serialize (snd key) [] 0)))).
Proof.
  intros Hlen. unfold LogSelfNodeInfo_toAddr, SHA2.Finalize.
  rewrite (SHA2_Update_whole _ _ Hlen). apply copy_trailing_SHA256.
Qed.

(** Whatever the key, [LogSelfNodeInfo_toAddr] leaves no trace and ends
    without an exception. *)
Lemma LogSelfNodeInfo_toAddr_Ok (key : PrivKey * PubKey) :
  exists toAddr : list byte,
    LogSelfNodeInfo_toAddr PubKey_Serialize PUB_KEY_SIZE SHA256 key
    = ([], Ok toAddr).
Proof.
  unfold LogSelfNodeInfo_toAddr, SHA2.Finalize.
  eexists. apply copy_trailing_SHA256.
Qed.

End Identity.

(** C5: the address [LogSelfNodeInfo] derives is a function of the
    public key alone: when the serialised public key fills the
    [PUB_KEY_SIZE] bytes that are hashed, the address is the trailing
    [ACC_ADDR_SIZE] = 20 bytes of the SHA-256 digest of the serialised
    public key, computed without any effect; two derivations from the
    same public key give the same bytes (whatever the private key next
    to it), and this is the address the function logs. *)
Theorem C5_address_is_trailing_bytes_of_digest
    (PrivKey PubKey : Type)
    (PrivKey_Serialize : PrivKey -> list byte -> N -> list byte)
    (PubKey_Serialize : PubKey -> list byte -> N -> list byte)
    (PRIV_KEY_SIZE PUB_KEY_SIZE : N) (SHA256 : list byte -> list byte)
    (priv priv' : PrivKey) (pub : PubKey) (peer : Peer) :
  (forall m : list byte, size (SHA256 m) = 32) ->
  size (PubKey_Serialize pub [] 0) = PUB_KEY_SIZE ->
  let digest := SHA256 (PubKey_Serialize pub [] 0) in
  let toAddr := drop (length digest - N.to_nat ACC_ADDR_SIZE) digest in
  LogSelfNodeInfo_toAddr PubKey_Serialize PUB_KEY_SIZE SHA256 (priv, pub)
  = ([], Ok toAddr) /\
  length toAddr = 20%nat /\
  (exists front : list byte, digest = front ++ toAddr) /\
  LogSelfNodeInfo_toAddr PubKey_Serialize PUB_KEY_SIZE SHA256 (priv', pub)
  = LogSelfNodeInfo_toAddr PubKey_Serialize PUB_KEY_SIZE SHA256 (priv, pub) /\
  last (trace (LogSelfNodeInfo PrivKey_Serialize PubKey_Serialize
                 PRIV_KEY_SIZE PUB_KEY_SIZE SHA256 (priv, pub) peer))
  = Some (LOG_GENERAL INFO
            [Str "My address is "; Addr toAddr; Str " and port is ";
             Num (m_listenPortHost peer)]).
Proof.
  intros Hsize Hlen digest toAddr.
  pose proof (LogSelfNodeInfo_toAddr_eq PrivKey PubKey PubKey_Serialize
                PUB_KEY_SIZE SHA256 Hsize (priv, pub) Hlen) as Haddr.
  pose proof (LogSelfNodeInfo_toAddr_eq PrivKey PubKey PubKey_Serialize
                PUB_KEY_SIZE SHA256 Hsize (priv', pub) Hlen) as Haddr'.
  cbn [snd] in Haddr, Haddr'. fold digest in Haddr, Haddr'.
  fold toAddr in Haddr, Haddr'.
  split; [exact Haddr|]. split; [|split; [|split]].
  - subst toAddr. rewrite length_drop.
    pose proof (Hsize (PubKey_Serialize pub [] 0)) as H32.
    fold digest in H32. unfold size in H32. unfold ACC_ADDR_SIZE. lia.
  - exists (take (length digest - N.to_nat ACC_ADDR_SIZE) digest).
    subst toAddr. symmetry. apply take_drop.
  - congruence.
  - unfold LogSelfNodeInfo. rewrite Haddr. reflexivity.
Qed.

Lemma example_digest_size (m : list byte) : size (example_digest m) = 32.
Proof.
  unfold size, example_digest.
  rewrite length_take, length_app, length_replicate. lia.
Qed.

Lemma C5_witness :
  LogSelfNodeInfo_toAddr example_Serialize 33 example_digest
    ([x01; x02], x03 :: replicate 32 xab)
  = ([], Ok (replicate 20 xab)).
Proof.
  exact (proj1 (C5_address_is_trailing_bytes_of_digest
                  (list byte) (list byte) example_Serialize example_Serialize
                  32 33 example_digest [x01; x02] [x01; x02]
                  (x03 :: replicate 32 xab) example_peer
                  example_digest_size eq_refl)).
Defined.

Section Constructor.

Variables PrivKey PubKey : Type.
Variable PrivKey_Serialize : PrivKey -> list byte -> N -> list byte.
Variable PubKey_Serialize : PubKey -> list byte -> N -> list byte.
Variables PRIV_KEY_SIZE PUB_KEY_SIZE : N.
Variable SHA256 : list byte -> list byte.

(** The log of every construction starts with the marker, the private
    key and the public key. *)
Lemma Zilliqa_logged_keys (IS_LOOKUP_NODE StartListening_returns : bool)
    (key : PrivKey * PubKey) (peer : Peer) (loadConfig : bool)
    (syncType : N) (toRetrieveHistory : bool) :
  exists rest : list Effect,
    logged (trace (Zilliqa PrivKey_Serialize PubKey_Serialize
                     PRIV_KEY_SIZE PUB_KEY_SIZE SHA256
                     IS_LOOKUP_NODE StartListening_returns key peer
                     loadConfig syncType toRetrieveHistory))
    = LOG_MARKER
        :: LOG_PAYLOAD INFO "Private Key" (PrivKey_Serialize (fst key) [] 0)
             (uint (PRIV_KEY_SIZE * 2))
        :: LOG_PAYLOAD INFO "Public Key" (PubKey_Serialize (snd key) [] 0)
             (uint (PUB_KEY_SIZE * 2))
        :: rest.
Proof.
  unfold Zilliqa. rewrite !trace_emit_bind.
  rewrite trace_bind. unfold LogSelfNodeInfo at 1.
  rewrite !trace_emit_bind.
  eexists. unfold logged. reflexivity.
Qed.

(** When the digest is long enough for the address to be cut from it,
    the address follows the keys in the log. *)
Lemma Zilliqa_logged_address (IS_LOOKUP_NODE StartListening_returns : bool)
    (key : PrivKey * PubKey) (peer : Peer) (loadConfig : bool)
    (syncType : N) (toRetrieveHistory : bool) :
  (forall m : list byte, size (SHA256 m) = 32) ->
  exists (toAddr : list byte) (rest : list Effect),
    LogSelfNodeInfo_toAddr PubKey_Serialize PUB_KEY_SIZE SHA256 key
    = ([], Ok toAddr) /\
    logged (trace (Zilliqa PrivKey_Serialize PubKey_Serialize
                     PRIV_KEY_SIZE PUB_KEY_SIZE SHA256
                     IS_LOOKUP_NODE StartListening_returns key peer
                     loadConfig syncType toRetrieveHistory))
    = LOG_MARKER
        :: LOG_PAYLOAD INFO "Private Key" (PrivKey_Serialize (fst key) [] 0)
             (uint (PRIV_KEY_SIZE * 2))
        :: LOG_PAYLOAD INFO "Public Key" (PubKey_Serialize (snd key) [] 0)
             (uint (PUB_KEY_SIZE * 2))
        :: LOG_GENERAL INFO
             [Str "My address is "; Addr toAddr; Str " and port is ";
              Num (m_listenPortHost peer)]
        :: rest.
Proof.
  intros Hsize.
  destruct (LogSelfNodeInfo_toAddr_Ok PrivKey PubKey PubKey_Serialize
              PUB_KEY_SIZE SHA256 Hsize key) as [toAddr HtoAddr].
  exists toAddr. unfold Zilliqa. rewrite !trace_emit_bind.
  rewrite trace_bind. unfold LogSelfNodeInfo at 1.
  rewrite !trace_emit_bind, trace_bind, HtoAddr.
  eexists. split; [reflexivity|]. unfold logged. reflexivity.
Qed.

End Constructor.

(** C7: in the ordinary node build, with sync type NEW_SYNC and
    [toRetrieveHistory] true, the constructor neither assigns the
    lookup's sync type nor sets the run-from-late flag nor calls any
    [StartSynchronization]; it logs the one warning of this case, and it
    runs to its end without an exception. *)
Theorem C7_new_sync_with_history_starts_nothing
    (PrivKey PubKey : Type)
    (PrivKey_Serialize : PrivKey -> list byte -> N -> list byte)
    (PubKey_Serialize : PubKey -> list byte -> N -> list byte)
    (PRIV_KEY_SIZE PUB_KEY_SIZE : N) (SHA256 : list byte -> list byte)
    (StartListening_returns : bool) (key : PrivKey * PubKey) (peer : Peer)
    (loadConfig : bool) :
  (forall m : list byte, size (SHA256 m) = 32) ->
  let construction :=
    Zilliqa PrivKey_Serialize PubKey_Serialize PRIV_KEY_SIZE PUB_KEY_SIZE
      SHA256 false StartListening_returns key peer loadConfig
      SyncType.NEW_SYNC true in
  sync_actions (trace construction) = [] /\
  warnings (trace construction)
  = [LOG_GENERAL WARNING
       [Str "Error: Sync for new node shouldn't retrieve history"]] /\
  last (trace construction)
  = Some (LOG_GENERAL INFO [Str "I am a normal node."]) /\
  result construction = Ok tt.
Proof.
  intros Hsize construction. subst construction.
  destruct (LogSelfNodeInfo_toAddr_Ok PrivKey PubKey PubKey_Serialize
              PUB_KEY_SIZE SHA256 Hsize key) as [toAddr HtoAddr].
  unfold Zilliqa, LogSelfNodeInfo. rewrite HtoAddr.
  repeat split; reflexivity.
Qed.

Lemma C7_witness :
  sync_actions
    (trace (Zilliqa example_Serialize example_Serialize 32 33 example_digest
              false false ([x01; x02], x03 :: replicate 32 xab) example_peer
              true SyncType.NEW_SYNC true))
  = [].
Proof.
  exact (proj1 (C7_new_sync_with_history_starts_nothing
                  (list byte) (list byte) example_Serialize example_Serialize
                  32 33 example_digest false
                  ([x01; x02], x03 :: replicate 32 xab) example_peer true
                  example_digest_size)).
Defined.

(** C9: every construction logs the serialised private key, whatever
    the build, the sync type and the other arguments, next to the
    serialised public key and the derived address; two constructions
    that differ only in the private key, with different serialisations,
    leave different logs. *)
Theorem C9_private_key_flows_to_the_log
    (PrivKey PubKey : Type)
    (PrivKey_Serialize : PrivKey -> list byte -> N -> list byte)
    (PubKey_Serialize : PubKey -> list byte -> N -> list byte)
    (PRIV_KEY_SIZE PUB_KEY_SIZE : N) (SHA256 : list byte -> list byte)
    (IS_LOOKUP_NODE StartListening_returns : bool)
    (priv priv' : PrivKey) (pub : PubKey) (peer : Peer)
    (loadConfig : bool) (syncType : N) (toRetrieveHistory : bool) :
  (forall m : list byte, size (SHA256 m) = 32) ->
  PrivKey_Serialize priv [] 0 <> PrivKey_Serialize priv' [] 0 ->
  let construction (k : PrivKey) :=
    Zilliqa PrivKey_Serialize PubKey_Serialize PRIV_KEY_SIZE PUB_KEY_SIZE
      SHA256 IS_LOOKUP_NODE StartListening_returns (k, pub) peer loadConfig
      syncType toRetrieveHistory in
  (forall k : PrivKey,
     exists (toAddr : list byte) (rest : list Effect),
       LogSelfNodeInfo_toAddr PubKey_Serialize PUB_KEY_SIZE SHA256 (k, pub)
       = ([], Ok toAddr) /\
       logged (trace (construction k))
       = LOG_MARKER
           :: LOG_PAYLOAD INFO "Private Key" (PrivKey_Serialize k [] 0)
                (uint (PRIV_KEY_SIZE * 2))
           :: LOG_PAYLOAD INFO "Public Key" (PubKey_Serialize pub [] 0)
                (uint (PUB_KEY_SIZE * 2))
           :: LOG_GENERAL INFO
                [Str "My address is "; Addr toAddr; Str " and port is ";
                 Num (m_listenPortHost peer)]
           :: rest) /\
  logged (trace (construction priv)) <> logged (trace (construction priv')).
Proof.
  intros Hsize Hne construction. subst construction. cbn beta. split.
  - intros k.
    apply (Zilliqa_logged_address PrivKey PubKey PrivKey_Serialize
             PubKey_Serialize PRIV_KEY_SIZE PUB_KEY_SIZE SHA256
             IS_LOOKUP_NODE StartListening_returns (k, pub) peer
             loadConfig syncType toRetrieveHistory Hsize).
  - destruct (Zilliqa_logged_keys PrivKey PubKey PrivKey_Serialize
                PubKey_Serialize PRIV_KEY_SIZE PUB_KEY_SIZE SHA256
                IS_LOOKUP_NODE StartListening_returns (priv, pub) peer
                loadConfig syncType toRetrieveHistory) as [rest ->].
    destruct (Zilliqa_logged_keys PrivKey PubKey PrivKey_Serialize
                PubKey_Serialize PRIV_KEY_SIZE PUB_KEY_SIZE SHA256
                IS_LOOKUP_NODE StartListening_returns (priv', pub) peer
                loadConfig syncType toRetrieveHistory) as [rest' ->].
    cbn [fst]. intros [= Heq _]. exact (Hne Heq).
Qed.

Lemma C9_witness :
  logged
    (trace (Zilliqa example_Serialize example_Serialize 32 33 example_digest
              false false ([x01; x02], x03 :: replicate 32 xab) example_peer
              true SyncType.NO_SYNC false))
  <> logged
       (trace (Zilliqa example_Serialize example_Serialize 32 33
                 example_digest false false
                 ([x01; x07], x03 :: replicate 32 xab) example_peer
                 true SyncType.NO_SYNC false)).
Proof.
  refine (proj2 (C9_private_key_flows_to_the_log
                   (list byte) (list byte) example_Serialize example_Serialize
                   32 33 example_digest false false [x01; x02] [x01; x07]
                   (x03 :: replicate 32 xab) example_peer true
                   SyncType.NO_SYNC false example_digest_size _)).
  cbn. discriminate.
Defined.

(** C10: in the ordinary node build, construction with NEW_SYNC and
    [toRetrieveHistory] false and construction with NORMAL_SYNC start
    synchronisation by the same three steps: assign the lookup's sync
    type, set the node's run-from-late flag to true, call the node's
    [StartSynchronization] once.  The two differ only in the constant
    assigned in the first step. *)
Theorem C10_new_sync_and_normal_sync_start_alike
    (PrivKey PubKey : Type)
    (PrivKey_Serialize : PrivKey -> list byte -> N -> list byte)
    (PubKey_Serialize : PubKey -> list byte -> N -> list byte)
    (PRIV_KEY_SIZE PUB_KEY_SIZE : N) (SHA256 : list byte -> list byte)
    (StartListening_returns : bool) (key : PrivKey * PubKey) (peer : Peer)
    (loadConfig toRetrieveHistory : bool) :
  (forall m : list byte, size (SHA256 m) = 32) ->
  let construction :=
    Zilliqa PrivKey_Serialize PubKey_Serialize PRIV_KEY_SIZE PUB_KEY_SIZE
      SHA256 false StartListening_returns key peer loadConfig in
  sync_actions (trace (construction SyncType.NEW_SYNC false))
  = [set_lookup_syncType SyncType.NEW_SYNC; set_runFromLate true;
     StartSynchronization m_n] /\
  sync_actions (trace (construction SyncType.NORMAL_SYNC toRetrieveHistory))
  = [set_lookup_syncType SyncType.NORMAL_SYNC; set_runFromLate true;
     StartSynchronization m_n].
Proof.
  intros Hsize construction. subst construction.
  destruct (LogSelfNodeInfo_toAddr_Ok PrivKey PubKey PubKey_Serialize
              PUB_KEY_SIZE SHA256 Hsize key) as [toAddr HtoAddr].
  unfold Zilliqa, LogSelfNodeInfo. rewrite HtoAddr.
  split; reflexivity.
Qed.

Lemma C10_witness :
  sync_actions
    (trace (Zilliqa example_Serialize example_Serialize 32 33 example_digest
              false false ([x01; x02], x03 :: replicate 32 xab) example_peer
              true SyncType.NEW_SYNC false))
  = [set_lookup_syncType SyncType.NEW_SYNC; set_runFromLate true;
     StartSynchronization m_n] /\
  sync_actions
    (trace (Zilliqa example_Serialize example_Serialize 32 33 example_digest
              false false ([x01; x02], x03 :: replicate 32 xab) example_peer
              true SyncType.NORMAL_SYNC true))
  = [set_lookup_syncType SyncType.NORMAL_SYNC; set_runFromLate true;
     StartSynchronization m_n].
Proof.
  exact (C10_new_sync_and_normal_sync_start_alike
           (list byte) (list byte) example_Serialize example_Serialize
           32 33 example_digest false
           ([x01; x02], x03 :: replicate 32 xab) example_peer true true
           example_digest_size).
Defined.

(** ** Further properties of ProcessMessage and RetrieveBroadcastList *)

(** X1: [ProcessMessage] throws nothing of its own.  When the
    handler it calls returns, or when it calls none, it returns
    normally, its last action is the [delete] of the message, there is
    no other [delete], and at most one handler was called.  It ends by
    an exception only when the handler it called threw that exception,
    and then the call of the handler is its last action: the message
    is not deleted. *)
Theorem ProcessMessage_deletes_unless_Execute_throws
    (Execute_outcome : Handler -> list byte -> N -> Peer -> Result bool)
    (message : MessagePtr) :
  let run := MayThrow.ProcessMessage Execute_outcome message in
  (result run = Ok tt /\
   last (trace run) = Some (delete (address message)) /\
   deleted (trace run) = [address message] /\
   (length (executed (trace run)) <= 1)%nat /\
   forall h, (h, address message) ∈ executed (trace run) ->
             exists b : bool,
               Execute_outcome h (first message) MessageOffset.INST
                 (second message) = Ok b)
  \/ (exists (h : Handler) (e : Exception),
        Execute_outcome h (first message) MessageOffset.INST (second message)
        = Raise e /\
        result run = Raise e /\
        trace run
        = [Execute h (address message) (first message) MessageOffset.INST
             (second message)] /\
        deleted (trace run) = []).
Proof.
  intros run. subst run.
  destruct (N.lt_ge_cases (size (first message)) MessageOffset.BODY)
    as [Hshort | Hlen].
  - left. unfold MayThrow.ProcessMessage.
    apply N.leb_gt in Hshort. rewrite Hshort. cbn.
    repeat split; try lia. intros h Hin. apply elem_of_nil in Hin.
    contradiction.
  - destruct (at_TYPE (first message) Hlen) as [msg_type Htype].
    destruct (N.lt_ge_cases (Byte.to_N msg_type) msg_handlers_count)
      as [Hlt | Hge].
    + destruct (subscript_msg_handlers msg_type Hlt) as [h Hh].
      unfold MayThrow.ProcessMessage, MayThrow.call_Execute, at_, subscript.
      apply N.leb_le in Hlen. apply N.ltb_lt in Hlt.
      rewrite Hlen, Htype. cbn. rewrite Hlt, Hh. cbn.
      destruct (Execute_outcome h (first message) MessageOffset.INST
                  (second message)) as [b | e] eqn:Hout.
      * left. destruct b; cbn; (repeat split; try lia);
          intros h' Hin; apply list_elem_of_singleton in Hin;
          injection Hin as ->; eexists; exact Hout.
      * right. exists h, e. cbn. repeat split. exact Hout.
    + left. unfold MayThrow.ProcessMessage, at_.
      apply N.leb_le in Hlen. apply N.ltb_ge in Hge.
      rewrite Hlen, Htype. cbn. rewrite Hge. cbn.
      repeat split; try lia. intros h Hin. apply elem_of_nil in Hin.
      contradiction.
Qed.

(** X2: A handler is called exactly for the messages of at least [BODY]
    bytes whose first byte is below 5, and a line is logged exactly for
    the messages of at least [BODY] bytes whose first byte is 5 or more. *)
Theorem ProcessMessage_outcome_by_length_and_tag
    (Execute_returns : Handler -> list byte -> N -> Peer -> bool)
    (message : MessagePtr) :
  (executed (trace (ProcessMessage Execute_returns message)) <> [] <->
   MessageOffset.BODY <= size (first message) /\
   exists msg_type,
     first message !! N.to_nat MessageOffset.TYPE = Some msg_type /\
     Byte.to_N msg_type < 5) /\
  (logged (trace (ProcessMessage Execute_returns message)) <> [] <->
   MessageOffset.BODY <= size (first message) /\
   exists msg_type,
     first message !! N.to_nat MessageOffset.TYPE = Some msg_type /\
     5 <= Byte.to_N msg_type).
Proof.
  destruct (N.lt_ge_cases (size (first message)) MessageOffset.BODY)
    as [Hshort | Hlen].
  - rewrite (ProcessMessage_short Execute_returns message Hshort).
    change (logged (trace ([delete (address message)], Ok tt)))
      with (@nil Effect).
    cbn. split; (split; [congruence | intros [Hlen _]; lia]).
  - destruct (at_TYPE (first message) Hlen) as [msg_type Htype].
    destruct (N.lt_ge_cases (Byte.to_N msg_type) msg_handlers_count)
      as [Hlt | Hge].
    + destruct (subscript_msg_handlers msg_type Hlt) as [h Hh].
      rewrite (ProcessMessage_known Execute_returns message msg_type h
                 Hlen Htype Hh).
      match goal with
      | |- context [logged ?t] => change (logged t) with (@nil Effect)
      end.
      cbn. split; split.
      * intros _. split; [exact Hlen|]. exists msg_type. split; assumption.
      * discriminate.
      * congruence.
      * intros (_ & b & Hb & Hge). rewrite Htype in Hb.
        injection Hb as <-. change msg_handlers_count with 5 in Hlt. lia.
    + rewrite (ProcessMessage_unknown Execute_returns message msg_type
                 Hlen Htype Hge).
      match goal with
      | |- context [logged ?t] =>
          change (logged t)
            with [LOG_GENERAL WARNING
                    [Str "Unknown message type "; Hex (Byte.to_N msg_type)]]
      end.
      cbn. split; split.
      * congruence.
      * intros (_ & b & Hb & Hlt). rewrite Htype in Hb.
        injection Hb as <-. change msg_handlers_count with 5 in Hge. lia.
      * intros _. split; [exact Hlen|]. exists msg_type. split; assumption.
      * discriminate.
Qed.

Lemma RetrieveBroadcastList_known
    (GetBroadcastList_returns : Handler -> byte -> Peer -> list Peer)
    (msg_type ins_type : byte) (from : Peer) (h : Handler) :
  msg_handlers !! N.to_nat (Byte.to_N msg_type) = Some h ->
  RetrieveBroadcastList GetBroadcastList_returns msg_type ins_type from
  = ([GetBroadcastList h ins_type from],
     Ok (GetBroadcastList_returns h ins_type from)).
Proof.
  intros Hh. unfold RetrieveBroadcastList, subscript.
  assert (Hlt : (Byte.to_N msg_type <? msg_handlers_count) = true).
  { apply N.ltb_lt. apply lookup_lt_Some in Hh.
    unfold msg_handlers_count, size. lia. }
  rewrite Hlt, Hh. reflexivity.
Qed.

(** X3: For a type tag below 5, [RetrieveBroadcastList] asks the handler
    at index = type tag, once, with the instruction tag and the sender,
    returns the handler's list as it is, and logs nothing. *)
Theorem RetrieveBroadcastList_known_type_tag
    (GetBroadcastList_returns : Handler -> byte -> Peer -> list Peer)
    (msg_type ins_type : byte) (from : Peer) :
  Byte.to_N msg_type < 5 ->
  exists h,
    msg_handlers !! N.to_nat (Byte.to_N msg_type) = Some h /\
    RetrieveBroadcastList GetBroadcastList_returns msg_type ins_type from
    = ([GetBroadcastList h ins_type from],
       Ok (GetBroadcastList_returns h ins_type from)).
Proof.
  intros Hlt. destruct (subscript_msg_handlers msg_type Hlt) as [h Hh].
  exists h. split; [exact Hh|].
  apply RetrieveBroadcastList_known, Hh.
Qed.

Lemma RetrieveBroadcastList_known_type_tag_witness :
  exists h,
    msg_handlers !! N.to_nat (Byte.to_N x04) = Some h /\
    RetrieveBroadcastList (fun _ _ from => [from]) x04 x07 example_peer
    = ([GetBroadcastList h x07 example_peer], Ok [example_peer]).
Proof.
  apply (RetrieveBroadcastList_known_type_tag
           (fun _ _ from => [from]) x04 x07 example_peer).
  reflexivity.
Defined.

(** X4: Dispatch and broadcast selection use the same table: the handler
    [ProcessMessage] calls for a message is the handler
    [RetrieveBroadcastList] asks for the type tag of that message. *)
Theorem ProcessMessage_and_RetrieveBroadcastList_agree
    (Execute_returns : Handler -> list byte -> N -> Peer -> bool)
    (GetBroadcastList_returns : Handler -> byte -> Peer -> list Peer)
    (message : MessagePtr) (msg_type ins_type : byte) (from : Peer)
    (h : Handler) :
  MessageOffset.BODY <= size (first message) ->
  first message !! N.to_nat MessageOffset.TYPE = Some msg_type ->
  (h, address message)
    ∈ executed (trace (ProcessMessage Execute_returns message)) <->
  GetBroadcastList h ins_type from
    ∈ trace (RetrieveBroadcastList GetBroadcastList_returns
               msg_type ins_type from).
Proof.
  intros Hlen Htype.
  destruct (N.lt_ge_cases (Byte.to_N msg_type) 5) as [Hlt | Hge].
  - destruct (subscript_msg_handlers msg_type Hlt) as [h' Hh'].
    rewrite (RetrieveBroadcastList_known GetBroadcastList_returns
               msg_type ins_type from h' Hh').
    rewrite (ProcessMessage_known Execute_returns message msg_type h'
               Hlen Htype Hh').
    cbn. rewrite !list_elem_of_singleton. split.
    + intros [= ->]. reflexivity.
    + intros [= ->]. reflexivity.
  - rewrite (ProcessMessage_unknown Execute_returns message msg_type
               Hlen Htype Hge).
    unfold RetrieveBroadcastList.
    apply N.ltb_ge in Hge. change msg_handlers_count with 5. rewrite Hge.
    cbn. rewrite list_elem_of_singleton. split.
    + intros H. apply elem_of_nil in H. contradiction.
    + discriminate.
Qed.

Lemma ProcessMessage_and_RetrieveBroadcastList_agree_witness :
  (m_n, 4096)
    ∈ executed (trace (ProcessMessage (fun _ _ _ _ => true) example_known))
  <->
  GetBroadcastList m_n x07 example_peer
    ∈ trace (RetrieveBroadcastList (fun _ _ from => [from])
               x02 x07 example_peer).
Proof.
  apply (ProcessMessage_and_RetrieveBroadcastList_agree
           (fun _ _ _ _ => true) (fun _ _ from => [from])
           example_known x02 x07 example_peer m_n).
  - vm_compute. discriminate.
  - reflexivity.
Defined.

(** ** Further properties of the queue, the intake loop, the pool and
       the destructor *)

Lemma run_app (MSGQUEUE_SIZE : N) (l1 l2 : list Action) :
  forall s : State,
    run MSGQUEUE_SIZE s (l1 ++ l2)
    = run MSGQUEUE_SIZE s l1 ≫= fun s' => run MSGQUEUE_SIZE s' l2.
Proof.
  induction l1 as [|a l1 IH]; intros s; [reflexivity|].
  cbn [app run]. destruct (step MSGQUEUE_SIZE s a) as [s1|]; cbn.
  - apply IH.
  - reflexivity.
Qed.

Lemma run_Dispatch_each (MSGQUEUE_SIZE : N) (messages : list MessagePtr) :
  forall (q p : list MessagePtr) (wt dt : list Effect),
    size (q ++ messages) <= MSGQUEUE_SIZE ->
    run MSGQUEUE_SIZE (mkState [] q p wt dt)
      (messages ≫= fun m => [Dispatch_call m; Dispatch_push 0])
    = Some (mkState [] (q ++ messages) p wt dt).
Proof.
  induction messages as [|m messages IH]; intros q p wt dt Hroom.
  - cbn. rewrite app_nil_r. reflexivity.
  - cbn [mbind list_bind app run step dispatching m_msgQueue m_queuePool
         worker_trace destructor_trace option_bind lookup list_lookup].
    cbn. unfold push.
    assert (Hlt : (size q <? MSGQUEUE_SIZE) = true).
    { apply N.ltb_lt. unfold size in *.
      rewrite length_app in Hroom. cbn in Hroom. lia. }
    rewrite Hlt. cbn.
    change (m :: messages) with ([m] ++ messages) in Hroom.
    rewrite app_assoc in Hroom. rewrite (IH (q ++ [m]) p wt dt Hroom).
    rewrite <- app_assoc. reflexivity.
Qed.

Lemma run_funcCheckMsgQueue_pop (MSGQUEUE_SIZE : N) (q : list MessagePtr) :
  forall (d p : list MessagePtr) (wt dt : list Effect),
    run MSGQUEUE_SIZE (mkState d q p wt dt)
      (replicate (length q) funcCheckMsgQueue_pop)
    = Some (mkState d [] (p ++ q) wt dt).
Proof.
  induction q as [|m q IH]; intros d p wt dt.
  - cbn. rewrite app_nil_r. reflexivity.
  - cbn. rewrite IH, <- app_assoc. reflexivity.
Qed.

(** X5: With room in the queue, one message goes from [Dispatch] through
    the queue and the intake loop to a job of the pool, and the job does
    to it what [ProcessMessage] does: nothing else happens to the
    message, and nothing is left behind. *)
Theorem Dispatch_to_ProcessMessage
    (MSGQUEUE_SIZE : N)
    (Execute_returns : Handler -> list byte -> N -> Peer -> bool)
    (message : MessagePtr) :
  1 <= MSGQUEUE_SIZE ->
  run MSGQUEUE_SIZE initial
    [Dispatch_call message; Dispatch_push 0; funcCheckMsgQueue_pop;
     AddJob_run 0 Execute_returns]
  = Some (mkState [] [] []
            (trace (ProcessMessage Execute_returns message)) []).
Proof.
  intros Hroom.
  assert (Hlt : (0 <? MSGQUEUE_SIZE) = true) by (apply N.ltb_lt; lia).
  unfold initial. cbn. unfold push.
  change (size (@nil MessagePtr)) with 0. rewrite Hlt. reflexivity.
Qed.

Lemma Dispatch_to_ProcessMessage_witness :
  run 4 initial
    [Dispatch_call example_known; Dispatch_push 0; funcCheckMsgQueue_pop;
     AddJob_run 0 (fun _ _ _ _ => false)]
  = Some (mkState [] [] []
            (trace (ProcessMessage (fun _ _ _ _ => false) example_known)) []).
Proof.
  apply (Dispatch_to_ProcessMessage 4 (fun _ _ _ _ => false) example_known).
  vm_compute. discriminate.
Defined.

(** X6: Messages dispatched one after the other, no more than the queue
    holds, reach the pool in the order of their [Dispatch] calls once
    the intake loop has taken them all. *)
Theorem Dispatch_order_reaches_the_pool
    (MSGQUEUE_SIZE : N) (messages : list MessagePtr) :
  size messages <= MSGQUEUE_SIZE ->
  run MSGQUEUE_SIZE initial
    ((messages ≫= fun m => [Dispatch_call m; Dispatch_push 0])
     ++ replicate (length messages) funcCheckMsgQueue_pop)
  = Some (mkState [] [] messages [] []).
Proof.
  intros Hroom. rewrite run_app. unfold initial.
  rewrite (run_Dispatch_each MSGQUEUE_SIZE messages [] [] [] [] Hroom).
  cbn [mbind option_bind app].
  apply (run_funcCheckMsgQueue_pop MSGQUEUE_SIZE messages [] [] [] []).
Qed.

Lemma Dispatch_order_reaches_the_pool_witness :
  run 3 initial
    (([example_known; example_short; example_unknown]
        ≫= fun m => [Dispatch_call m; Dispatch_push 0])
     ++ replicate 3 funcCheckMsgQueue_pop)
  = Some (mkState [] [] [example_known; example_short; example_unknown]
            [] []).
Proof.
  apply (Dispatch_order_reaches_the_pool 3
           [example_known; example_short; example_unknown]).
  vm_compute. discriminate.
Defined.

(** X7: At every moment, drained or not: no message has been released
    more often than it was dispatched, and no handler has been called
    more often for a message than the message was dispatched. *)
Theorem never_released_more_than_dispatched
    (MSGQUEUE_SIZE : N) (l : list Action) (s : State) :
  run MSGQUEUE_SIZE initial l = Some s ->
  deleted (worker_trace s) ++ deleted (destructor_trace s)
  ⊆+ address <$> dispatched l /\
  executed_for (worker_trace s) ⊆+ address <$> dispatched l.
Proof.
  intros Hrun.
  destruct (run_no_more MSGQUEUE_SIZE l initial s Hrun) as (Hacc & Hfly).
  cbn in Hacc, Hfly. split.
  - transitivity (accounted s); [|exact Hacc].
    unfold accounted. solve_submseteq.
  - transitivity (in_flight_or_executed s); [|exact Hfly].
    unfold in_flight_or_executed. solve_submseteq.
Qed.

Lemma never_released_more_than_dispatched_witness :
  deleted (worker_trace example_final)
  ++ deleted (destructor_trace example_final)
  ⊆+ address <$> dispatched example_actions /\
  executed_for (worker_trace example_final)
  ⊆+ address <$> dispatched example_actions.
Proof.
  apply (never_released_more_than_dispatched 1 example_actions example_final).
  vm_compute. reflexivity.
Defined.

(** X8: Run on its own, the loop of the destructor empties the queue: it
    deletes every message the queue holds, oldest first, each once,
    calls no handler, and leaves callers, pool and workers alone. *)
Theorem destructor_releases_the_queue
    (MSGQUEUE_SIZE : N) (d q p : list MessagePtr) (wt dt : list Effect) :
  Zilliqa_destructor q = (delete <$> (address <$> q), Ok tt) /\
  executed (trace (Zilliqa_destructor q)) = [] /\
  deleted (trace (Zilliqa_destructor q)) = address <$> q /\
  run MSGQUEUE_SIZE (mkState d q p wt dt)
    (replicate (length q) Destructor_pop)
  = Some (mkState d [] p wt (dt ++ (delete <$> (address <$> q)))).
Proof.
  rewrite run_Destructor_pop, Zilliqa_destructor_trace. cbn [trace fst].
  repeat split.
  - induction q as [|m q IH]; [reflexivity | exact IH].
  - induction q as [|m q IH]; [reflexivity|].
    cbn. unfold deleted in IH. rewrite IH. reflexivity.
Qed.

(** ** Further properties of the constructor *)

Ltac split_syncType syncType :=
  destruct (N.eqb_spec syncType SyncType.NO_SYNC) as [-> | ?];
  [| destruct (N.eqb_spec syncType SyncType.NEW_SYNC) as [-> | ?];
     [| destruct (N.eqb_spec syncType SyncType.NORMAL_SYNC) as [-> | ?];
        [| destruct (N.eqb_spec syncType SyncType.DS_SYNC) as [-> | ?];
           [| destruct (N.eqb_spec syncType SyncType.LOOKUP_SYNC)
                as [-> | ?]]]]].

Ltac in_list :=
  solve [repeat first [apply list_elem_of_here | apply list_elem_of_further]].

Ltac not_in_list :=
  let H := fresh in
  intros H;
  repeat (apply elem_of_cons in H; destruct H as [H | H]; [discriminate H|]);
  apply elem_of_nil in H; exact H.

Section ConstructorCases.

Variables PrivKey PubKey : Type.
Variable PrivKey_Serialize : PrivKey -> list byte -> N -> list byte.
Variable PubKey_Serialize : PubKey -> list byte -> N -> list byte.
Variables PRIV_KEY_SIZE PUB_KEY_SIZE : N.
Variable SHA256 : list byte -> list byte.
Hypothesis SHA256_size : forall m : list byte, size (SHA256 m) = 32.

(** The construction in closed form: what is done in every case, then
    the part chosen by the sync type, then the part chosen by the
    build. *)
Lemma Zilliqa_closed_form (IS_LOOKUP_NODE StartListening_returns : bool)
    (key : PrivKey * PubKey) (peer : Peer) (loadConfig : bool)
    (syncType : N) (toRetrieveHistory : bool) :
  exists toAddr : list byte,
    LogSelfNodeInfo_toAddr PubKey_Serialize PUB_KEY_SIZE SHA256 key
    = ([], Ok toAddr) /\
    Zilliqa PrivKey_Serialize PubKey_Serialize PRIV_KEY_SIZE PUB_KEY_SIZE
      SHA256 IS_LOOKUP_NODE StartListening_returns key peer loadConfig
      syncType toRetrieveHistory
    = ([LOG_MARKER; DetachedFunction 1; make_shared_Validator;
        RegisterColleagues; Install syncType toRetrieveHistory;
        LOG_PAYLOAD INFO "Private Key" (PrivKey_Serialize (fst key) [] 0)
          (uint (PRIV_KEY_SIZE * 2));
        LOG_PAYLOAD INFO "Public Key" (PubKey_Serialize (snd key) [] 0)
          (uint (PUB_KEY_SIZE * 2));
        LOG_GENERAL INFO
          [Str "My address is "; Addr toAddr; Str " and port is ";
           Num (m_listenPortHost peer)];
        SetSelfPeer peer]
       ++ (if syncType =? SyncType.NO_SYNC then
             [LOG_GENERAL INFO [Str "No Sync Needed"]; Whitelist_Init]
           else if negb IS_LOOKUP_NODE && (syncType =? SyncType.NEW_SYNC) then
             LOG_GENERAL INFO [Str "Sync as a new node"]
             :: (if negb toRetrieveHistory then
                   [set_lookup_syncType SyncType.NEW_SYNC;
                    set_runFromLate true; StartSynchronization m_n]
                 else
                   [LOG_GENERAL WARNING
                      [Str
                         "Error: Sync for new node shouldn't retrieve history"]])
           else if negb IS_LOOKUP_NODE && (syncType =? SyncType.NORMAL_SYNC)
           then
             [LOG_GENERAL INFO [Str "Sync as a normal node"];
              set_lookup_syncType SyncType.NORMAL_SYNC;
              set_runFromLate true; StartSynchronization m_n]
           else if negb IS_LOOKUP_NODE && (syncType =? SyncType.DS_SYNC) then
             [LOG_GENERAL INFO [Str "Sync as a ds node"];
              set_lookup_syncType SyncType.DS_SYNC;
              StartSynchronization m_ds]
           else if IS_LOOKUP_NODE && (syncType =? SyncType.LOOKUP_SYNC) then
             [LOG_GENERAL INFO [Str "Sync as a lookup node"];
              set_lookup_syncType SyncType.LOOKUP_SYNC;
              StartSynchronization m_lookup]
           else [LOG_GENERAL WARNING [Str "Invalid Sync Type"]])
       ++ (if negb IS_LOOKUP_NODE then
             [LOG_GENERAL INFO [Str "I am a normal node."]]
           else
             [LOG_GENERAL INFO [Str "I am a lookup node."]; StartListening;
              if StartListening_returns then
                LOG_GENERAL INFO [Str "API Server started successfully"]
              else LOG_GENERAL WARNING [Str "API Server couldn't start"]]),
       Ok tt).
Proof.
  destruct (LogSelfNodeInfo_toAddr_Ok PrivKey PubKey PubKey_Serialize
              PUB_KEY_SIZE SHA256 SHA256_size key) as [toAddr HtoAddr].
  exists toAddr. split; [exact HtoAddr|].
  unfold Zilliqa, LogSelfNodeInfo. rewrite HtoAddr.
  destruct IS_LOOKUP_NODE, StartListening_returns, toRetrieveHistory;
    split_syncType syncType; reflexivity.
Qed.

End ConstructorCases.

(** X9: Whatever the build and the arguments, valid or not, construction
    runs to its end, and it starts at most one synchronisation: either
    nothing is started, or the sync type given to the constructor, and
    no other value, is recorded on the lookup and then one
    [StartSynchronization] is called; the run-from-late flag is set only
    before the node's own. *)
Theorem Zilliqa_starts_at_most_one_synchronisation
    (PrivKey PubKey : Type)
    (PrivKey_Serialize : PrivKey -> list byte -> N -> list byte)
    (PubKey_Serialize : PubKey -> list byte -> N -> list byte)
    (PRIV_KEY_SIZE PUB_KEY_SIZE : N) (SHA256 : list byte -> list byte)
    (IS_LOOKUP_NODE StartListening_returns : bool)
    (key : PrivKey * PubKey) (peer : Peer) (loadConfig : bool)
    (syncType : N) (toRetrieveHistory : bool) :
  (forall m : list byte, size (SHA256 m) = 32) ->
  let construction :=
    Zilliqa PrivKey_Serialize PubKey_Serialize PRIV_KEY_SIZE PUB_KEY_SIZE
      SHA256 IS_LOOKUP_NODE StartListening_returns key peer loadConfig
      syncType toRetrieveHistory in
  result construction = Ok tt /\
  (sync_actions (trace construction) = [] \/
   sync_actions (trace construction)
   = [set_lookup_syncType syncType; set_runFromLate true;
      StartSynchronization m_n] \/
   exists h : Handler,
     h <> m_n /\
     sync_actions (trace construction)
     = [set_lookup_syncType syncType; StartSynchronization h]).
Proof.
  intros Hsize construction. subst construction.
  destruct (Zilliqa_closed_form PrivKey PubKey PrivKey_Serialize
              PubKey_Serialize PRIV_KEY_SIZE PUB_KEY_SIZE SHA256 Hsize
              IS_LOOKUP_NODE StartListening_returns key peer loadConfig
              syncType toRetrieveHistory) as (toAddr & _ & ->).
  split; [reflexivity|].
  destruct IS_LOOKUP_NODE, StartListening_returns, toRetrieveHistory;
    split_syncType syncType;
    first [ left; reflexivity
          | right; left; reflexivity
          | right; right; exists m_ds; split; [discriminate | reflexivity]
          | right; right; exists m_lookup;
            split; [discriminate | reflexivity] ].
Qed.

Lemma Zilliqa_starts_at_most_one_synchronisation_witness :
  result (Zilliqa example_Serialize example_Serialize 32 33 example_digest
            false false ([x01; x02], x03 :: replicate 32 xab) example_peer
            true 77 true)
  = Ok tt.
Proof.
  exact (proj1 (Zilliqa_starts_at_most_one_synchronisation
                  (list byte) (list byte) example_Serialize example_Serialize
                  32 33 example_digest false false
                  ([x01; x02], x03 :: replicate 32 xab) example_peer true
                  77 true example_digest_size)).
Defined.

(** X10: A sync type the build does not accept (a value outside the
    enumeration, a node's sync type in the lookup build, the lookup's
    sync type in the node build) makes the constructor log "Invalid Sync
    Type" as a warning and go on: nothing is synchronised, the whitelist
    is not initialised, and construction runs to its end. *)
Theorem Zilliqa_invalid_sync_type
    (PrivKey PubKey : Type)
    (PrivKey_Serialize : PrivKey -> list byte -> N -> list byte)
    (PubKey_Serialize : PubKey -> list byte -> N -> list byte)
    (PRIV_KEY_SIZE PUB_KEY_SIZE : N) (SHA256 : list byte -> list byte)
    (IS_LOOKUP_NODE StartListening_returns : bool)
    (key : PrivKey * PubKey) (peer : Peer) (loadConfig : bool)
    (syncType : N) (toRetrieveHistory : bool) :
  (forall m : list byte, size (SHA256 m) = 32) ->
  syncType <> SyncType.NO_SYNC ->
  (IS_LOOKUP_NODE = false ->
   syncType <> SyncType.NEW_SYNC /\ syncType <> SyncType.NORMAL_SYNC /\
   syncType <> SyncType.DS_SYNC) ->
  (IS_LOOKUP_NODE = true -> syncType <> SyncType.LOOKUP_SYNC) ->
  let construction :=
    Zilliqa PrivKey_Serialize PubKey_Serialize PRIV_KEY_SIZE PUB_KEY_SIZE
      SHA256 IS_LOOKUP_NODE StartListening_returns key peer loadConfig
      syncType toRetrieveHistory in
  LOG_GENERAL WARNING [Str "Invalid Sync Type"] ∈ trace construction /\
  sync_actions (trace construction) = [] /\
  (Whitelist_Init ∉ trace construction) /\
  result construction = Ok tt.
Proof.
  intros Hsize Hno Hnode Hlookup construction. subst construction.
  destruct (Zilliqa_closed_form PrivKey PubKey PrivKey_Serialize
              PubKey_Serialize PRIV_KEY_SIZE PUB_KEY_SIZE SHA256 Hsize
              IS_LOOKUP_NODE StartListening_returns key peer loadConfig
              syncType toRetrieveHistory) as (toAddr & _ & ->).
  destruct IS_LOOKUP_NODE, StartListening_returns, toRetrieveHistory;
    split_syncType syncType;
    try (exfalso; apply Hno; reflexivity);
    try (exfalso; apply (Hlookup eq_refl); reflexivity);
    try (exfalso; destruct (Hnode eq_refl) as (H1 & H2 & H3);
         first [apply H1; reflexivity | apply H2; reflexivity
               | apply H3; reflexivity]);
    (split; [cbn; in_list | split; [reflexivity | split;
       [cbn; not_in_list | reflexivity]]]).
Qed.

Lemma Zilliqa_invalid_sync_type_witness :
  LOG_GENERAL WARNING [Str "Invalid Sync Type"]
    ∈ trace (Zilliqa example_Serialize example_Serialize 32 33 example_digest
               true true ([x01; x02], x03 :: replicate 32 xab) example_peer
               true SyncType.NORMAL_SYNC false).
Proof.
  refine (proj1 (Zilliqa_invalid_sync_type
                   (list byte) (list byte) example_Serialize example_Serialize
                   32 33 example_digest true true
                   ([x01; x02], x03 :: replicate 32 xab) example_peer true
                   SyncType.NORMAL_SYNC false example_digest_size _ _ _)).
  - discriminate.
  - discriminate.
  - discriminate.
Defined.

(** X11: The whitelist is initialised exactly when the sync type is
    NO_SYNC, in either build, and then nothing is synchronised. *)
Theorem Zilliqa_Whitelist_Init_iff_NO_SYNC
    (PrivKey PubKey : Type)
    (PrivKey_Serialize : PrivKey -> list byte -> N -> list byte)
    (PubKey_Serialize : PubKey -> list byte -> N -> list byte)
    (PRIV_KEY_SIZE PUB_KEY_SIZE : N) (SHA256 : list byte -> list byte)
    (IS_LOOKUP_NODE StartListening_returns : bool)
    (key : PrivKey * PubKey) (peer : Peer) (loadConfig : bool)
    (syncType : N) (toRetrieveHistory : bool) :
  (forall m : list byte, size (SHA256 m) = 32) ->
  let construction :=
    Zilliqa PrivKey_Serialize PubKey_Serialize PRIV_KEY_SIZE PUB_KEY_SIZE
      SHA256 IS_LOOKUP_NODE StartListening_returns key peer loadConfig
      syncType toRetrieveHistory in
  (Whitelist_Init ∈ trace construction <-> syncType = SyncType.NO_SYNC) /\
  (Whitelist_Init ∈ trace construction ->
   sync_actions (trace construction) = []).
Proof.
  intros Hsize construction. subst construction.
  destruct (Zilliqa_closed_form PrivKey PubKey PrivKey_Serialize
              PubKey_Serialize PRIV_KEY_SIZE PUB_KEY_SIZE SHA256 Hsize
              IS_LOOKUP_NODE StartListening_returns key peer loadConfig
              syncType toRetrieveHistory) as (toAddr & _ & ->).
  destruct IS_LOOKUP_NODE, StartListening_returns, toRetrieveHistory;
    split_syncType syncType; cbn [trace fst app negb andb];
    (split; [split|]);
    first [ intros _; reflexivity
          | intros _; in_list
          | not_in_list
          | discriminate
          | intros; exfalso; congruence
          | intros H; exfalso; revert H; not_in_list ].
Qed.

Lemma Zilliqa_Whitelist_Init_iff_NO_SYNC_witness :
  Whitelist_Init
    ∈ trace (Zilliqa example_Serialize example_Serialize 32 33 example_digest
               true false ([x01; x02], x03 :: replicate 32 xab) example_peer
               true SyncType.NO_SYNC false)
  <-> SyncType.NO_SYNC = SyncType.NO_SYNC.
Proof.
  exact (proj1 (Zilliqa_Whitelist_Init_iff_NO_SYNC
                  (list byte) (list byte) example_Serialize example_Serialize
                  32 33 example_digest true false
                  ([x01; x02], x03 :: replicate 32 xab) example_peer true
                  SyncType.NO_SYNC false example_digest_size)).
Defined.

(** X12: Which synchronisation is started, in full: the node's in the
    node build for NEW_SYNC without history or NORMAL_SYNC, the
    directory service's in the node build for DS_SYNC, the lookup's in
    the lookup build for LOOKUP_SYNC; the peer manager's and the
    consensus user's never, and no other combination starts any. *)
Theorem Zilliqa_StartSynchronization_iff
    (PrivKey PubKey : Type)
    (PrivKey_Serialize : PrivKey -> list byte -> N -> list byte)
    (PubKey_Serialize : PubKey -> list byte -> N -> list byte)
    (PRIV_KEY_SIZE PUB_KEY_SIZE : N) (SHA256 : list byte -> list byte)
    (IS_LOOKUP_NODE StartListening_returns : bool)
    (key : PrivKey * PubKey) (peer : Peer) (loadConfig : bool)
    (syncType : N) (toRetrieveHistory : bool) (h : Handler) :
  (forall m : list byte, size (SHA256 m) = 32) ->
  StartSynchronization h
    ∈ trace (Zilliqa PrivKey_Serialize PubKey_Serialize PRIV_KEY_SIZE
               PUB_KEY_SIZE SHA256 IS_LOOKUP_NODE StartListening_returns
               key peer loadConfig syncType toRetrieveHistory)
  <-> (IS_LOOKUP_NODE = false /\ h = m_n /\
       (syncType = SyncType.NEW_SYNC /\ toRetrieveHistory = false \/
        syncType = SyncType.NORMAL_SYNC)) \/
      (IS_LOOKUP_NODE = false /\ h = m_ds /\ syncType = SyncType.DS_SYNC) \/
      (IS_LOOKUP_NODE = true /\ h = m_lookup /\
       syncType = SyncType.LOOKUP_SYNC).
Proof.
  intros Hsize.
  destruct (Zilliqa_closed_form PrivKey PubKey PrivKey_Serialize
              PubKey_Serialize PRIV_KEY_SIZE PUB_KEY_SIZE SHA256 Hsize
              IS_LOOKUP_NODE StartListening_returns key peer loadConfig
              syncType toRetrieveHistory) as (toAddr & _ & ->).
  destruct IS_LOOKUP_NODE, StartListening_returns, toRetrieveHistory;
    split_syncType syncType; cbn [trace fst app negb andb];
    (split;
     [ intros H;
       repeat (apply elem_of_cons in H;
               destruct H as [H | H];
               [first [discriminate H | injection H as ->; tauto]|]);
       apply elem_of_nil in H; contradiction
     | intros [(? & ? & [[? ?] | ?]) | [(? & ? & ?) | (? & ? & ?)]];
       subst; first [discriminate | congruence | in_list] ]).
Qed.

Lemma Zilliqa_StartSynchronization_iff_witness :
  StartSynchronization m_lookup
    ∈ trace (Zilliqa example_Serialize example_Serialize 32 33 example_digest
               true true ([x01; x02], x03 :: replicate 32 xab) example_peer
               true SyncType.LOOKUP_SYNC false).
Proof.
  apply (Zilliqa_StartSynchronization_iff
           (list byte) (list byte) example_Serialize example_Serialize
           32 33 example_digest true true
           ([x01; x02], x03 :: replicate 32 xab) example_peer true
           SyncType.LOOKUP_SYNC false m_lookup example_digest_size).
  right. right. repeat split.
Defined.

(** X13: The node build never calls the API server. The lookup build
    calls [StartListening] once, at the very end, whatever the sync
    type; the answer decides the last log line (information or warning)
    and nothing else, and construction ends normally on either answer. *)
Theorem Zilliqa_StartListening
    (PrivKey PubKey : Type)
    (PrivKey_Serialize : PrivKey -> list byte -> N -> list byte)
    (PubKey_Serialize : PubKey -> list byte -> N -> list byte)
    (PRIV_KEY_SIZE PUB_KEY_SIZE : N) (SHA256 : list byte -> list byte)
    (key : PrivKey * PubKey) (peer : Peer) (loadConfig : bool)
    (syncType : N) (toRetrieveHistory : bool) :
  (forall m : list byte, size (SHA256 m) = 32) ->
  let construction (IS_LOOKUP_NODE StartListening_returns : bool) :=
    Zilliqa PrivKey_Serialize PubKey_Serialize PRIV_KEY_SIZE PUB_KEY_SIZE
      SHA256 IS_LOOKUP_NODE StartListening_returns key peer loadConfig
      syncType toRetrieveHistory in
  (forall StartListening_returns : bool,
     StartListening ∉ trace (construction false StartListening_returns)) /\
  exists front : list Effect,
    (StartListening ∉ front) /\
    forall StartListening_returns : bool,
      construction true StartListening_returns
      = (front
         ++ [StartListening;
             if StartListening_returns then
               LOG_GENERAL INFO [Str "API Server started successfully"]
             else LOG_GENERAL WARNING [Str "API Server couldn't start"]],
         Ok tt).
Proof.
  intros Hsize construction. subst construction. cbn beta. split.
  - intros StartListening_returns.
    destruct (Zilliqa_closed_form PrivKey PubKey PrivKey_Serialize
                PubKey_Serialize PRIV_KEY_SIZE PUB_KEY_SIZE SHA256 Hsize
                false StartListening_returns key peer loadConfig
                syncType toRetrieveHistory) as (toAddr & _ & ->).
    destruct toRetrieveHistory; split_syncType syncType;
      cbn [trace fst app negb andb]; not_in_list.
  - destruct (Zilliqa_closed_form PrivKey PubKey PrivKey_Serialize
                PubKey_Serialize PRIV_KEY_SIZE PUB_KEY_SIZE SHA256 Hsize
                true true key peer loadConfig syncType toRetrieveHistory)
      as (toAddr & HtoAddr & Htrue).
    destruct (Zilliqa_closed_form PrivKey PubKey PrivKey_Serialize
                PubKey_Serialize PRIV_KEY_SIZE PUB_KEY_SIZE SHA256 Hsize
                true false key peer loadConfig syncType toRetrieveHistory)
      as (toAddr' & HtoAddr' & Hfalse).
    rewrite HtoAddr in HtoAddr'. injection HtoAddr' as <-.
    eexists. split; [|intros [|]; [rewrite Htrue | rewrite Hfalse]].
    2: { cbn [negb]. rewrite !app_assoc.
         change [LOG_GENERAL INFO [Str "I am a lookup node."]; StartListening;
                 LOG_GENERAL INFO [Str "API Server started successfully"]]
           with ([LOG_GENERAL INFO [Str "I am a lookup node."]]
                 ++ [StartListening;
                     LOG_GENERAL INFO
                       [Str "API Server started successfully"]]).
         rewrite app_assoc. reflexivity. }
    2: { cbn [negb]. rewrite !app_assoc.
         change [LOG_GENERAL INFO [Str "I am a lookup node."]; StartListening;
                 LOG_GENERAL WARNING [Str "API Server couldn't start"]]
           with ([LOG_GENERAL INFO [Str "I am a lookup node."]]
                 ++ [StartListening;
                     LOG_GENERAL WARNING [Str "API Server couldn't start"]]).
         rewrite app_assoc. reflexivity. }
    destruct toRetrieveHistory; split_syncType syncType;
      cbn [app negb andb]; not_in_list.
Qed.

Lemma Zilliqa_StartListening_witness :
  StartListening
    ∉ trace (Zilliqa example_Serialize example_Serialize 32 33
               example_digest false true
               ([x01; x02], x03 :: replicate 32 xab) example_peer
               true SyncType.DS_SYNC false).
Proof.
  exact (proj1 (Zilliqa_StartListening
                  (list byte) (list byte) example_Serialize example_Serialize
                  32 33 example_digest
                  ([x01; x02], x03 :: replicate 32 xab) example_peer true
                  SyncType.DS_SYNC false example_digest_size) true).
Defined.

(** ** Further properties of LogSelfNodeInfo *)

(** X14: [LogSelfNodeInfo] does nothing but log, three lines in this
    order: the private key, the public key, and the address with the
    listen port of the peer; the address has 20 bytes and is cut from
    the end of the digest of the first [PUB_KEY_SIZE] bytes of the
    serialised public key. *)
Theorem LogSelfNodeInfo_logs_three_lines
    (PrivKey PubKey : Type)
    (PrivKey_Serialize : PrivKey -> list byte -> N -> list byte)
    (PubKey_Serialize : PubKey -> list byte -> N -> list byte)
    (PRIV_KEY_SIZE PUB_KEY_SIZE : N) (SHA256 : list byte -> list byte)
    (key : PrivKey * PubKey) (peer : Peer) :
  (forall m : list byte, size (SHA256 m) = 32) ->
  let digest :=
    SHA256 (take (N.to_nat PUB_KEY_SIZE) (PubKey_Serialize (snd key) [] 0)) in
  let toAddr := drop (length digest - N.to_nat ACC_ADDR_SIZE) digest in
  LogSelfNodeInfo PrivKey_Serialize PubKey_Serialize PRIV_KEY_SIZE
    PUB_KEY_SIZE SHA256 key peer
  = ([LOG_PAYLOAD INFO "Private Key" (PrivKey_Serialize (fst key) [] 0)
        (uint (PRIV_KEY_SIZE * 2));
      LOG_PAYLOAD INFO "Public Key" (PubKey_Serialize (snd key) [] 0)
        (uint (PUB_KEY_SIZE * 2));
      LOG_GENERAL INFO
        [Str "My address is "; Addr toAddr; Str " and port is ";
         Num (m_listenPortHost peer)]], Ok tt) /\
  length toAddr = 20%nat.
Proof.
  intros Hsize digest toAddr.
  assert (HtoAddr :
    LogSelfNodeInfo_toAddr PubKey_Serialize PUB_KEY_SIZE SHA256 key
    = ([], Ok toAddr)).
  { unfold LogSelfNodeInfo_toAddr, SHA2.Finalize, SHA2.Update, SHA2.Reset.
    change (N.to_nat 0) with 0%nat. cbn [app]. rewrite drop_0.
    apply (copy_trailing_SHA256 SHA256 Hsize). }
  split.
  - unfold LogSelfNodeInfo. rewrite HtoAddr. reflexivity.
  - subst toAddr. rewrite length_drop.
    pose proof (Hsize (take (N.to_nat PUB_KEY_SIZE)
                         (PubKey_Serialize (snd key) [] 0))) as H32.
    fold digest in H32. unfold size in H32. unfold ACC_ADDR_SIZE. lia.
Qed.

Lemma LogSelfNodeInfo_logs_three_lines_witness :
  length
    (drop
       (length
          (example_digest
             (take (N.to_nat 33)
                (example_Serialize (x03 :: replicate 40 xab) [] 0)))
        - N.to_nat ACC_ADDR_SIZE)
       (example_digest
          (take (N.to_nat 33)
             (example_Serialize (x03 :: replicate 40 xab) [] 0))))
  = 20%nat.
Proof.
  exact (proj2 (LogSelfNodeInfo_logs_three_lines
                  (list byte) (list byte) example_Serialize example_Serialize
                  32 33 example_digest
                  ([x01; x02], x03 :: replicate 40 xab) example_peer
                  example_digest_size)).
Defined.

(** X15: Only the first [PUB_KEY_SIZE] bytes of the serialised public
    key count: two keys whose serialisations agree on them get the same
    address, whatever follows and whatever the private keys. *)
Theorem LogSelfNodeInfo_toAddr_reads_PUB_KEY_SIZE_bytes
    (PrivKey PubKey : Type)
    (PubKey_Serialize : PubKey -> list byte -> N -> list byte)
    (PUB_KEY_SIZE : N) (SHA256 : list byte -> list byte)
    (priv priv' : PrivKey) (pub pub' : PubKey) :
  PUB_KEY_SIZE <= size (PubKey_Serialize pub [] 0) ->
  PUB_KEY_SIZE <= size (PubKey_Serialize pub' [] 0) ->
  take (N.to_nat PUB_KEY_SIZE) (PubKey_Serialize pub [] 0)
  = take (N.to_nat PUB_KEY_SIZE) (PubKey_Serialize pub' [] 0) ->
  LogSelfNodeInfo_toAddr PubKey_Serialize PUB_KEY_SIZE SHA256 (priv, pub)
  = LogSelfNodeInfo_toAddr PubKey_Serialize PUB_KEY_SIZE SHA256 (priv', pub').
Proof.
  intros _ _ Heq.
  unfold LogSelfNodeInfo_toAddr, SHA2.Finalize, SHA2.Update, SHA2.Reset.
  change (N.to_nat 0) with 0%nat. cbn [app snd].
  rewrite !drop_0, Heq. reflexivity.
Qed.

Lemma LogSelfNodeInfo_toAddr_reads_PUB_KEY_SIZE_bytes_witness :
  LogSelfNodeInfo_toAddr example_Serialize 33 example_digest
    ([x01], x03 :: replicate 32 xab ++ [x11; x12])
  = LogSelfNodeInfo_toAddr example_Serialize 33 example_digest
      ([x02; x03], x03 :: replicate 32 xab ++ [x21]).
Proof.
  apply (LogSelfNodeInfo_toAddr_reads_PUB_KEY_SIZE_bytes
           (list byte) (list byte) example_Serialize 33 example_digest
           [x01] [x02; x03]
           (x03 :: replicate 32 xab ++ [x11; x12])
           (x03 :: replicate 32 xab ++ [x21])).
  - vm_compute. discriminate.
  - vm_compute. discriminate.
  - reflexivity.
Defined.

(** ** Properties of getTransactionsFromFile and GetFromFile *)

Lemma resize_length (vec : list byte) (n : N) :
  length (resize vec n) = N.to_nat n.
Proof.
  unfold resize. rewrite length_app, length_take, length_replicate. lia.
Qed.

(** The loop never throws and never changes the size of the vector. *)
Lemma getTransactionsFromFile_loop_length (n : nat) :
  forall (i : N) (f : fstream) (vec : list byte),
    exists (t : list Effect) (b : bool) (f' : fstream) (vec' : list byte),
      getTransactionsFromFile_loop n i f vec = (t, Ok (b, f', vec')) /\
      length vec' = length vec.
Proof.
  induction n as [|n IH]; intros i f vec.
  - exists [], true, f, vec. split; reflexivity.
  - cbn [getTransactionsFromFile_loop]. destruct (good f); cbn [negb].
    + destruct (get f) as [c f'].
      destruct (IH (i + 1) f' (<[N.to_nat i := c]> vec))
        as (t & b & f'' & vec' & -> & Hlen).
      exists t, b, f'', vec'. split; [reflexivity|].
      rewrite Hlen. apply length_insert.
    + eexists _, false, f, vec. split; reflexivity.
Qed.

(** While the file has bytes left, each iteration copies one. *)
Lemma getTransactionsFromFile_loop_copies (a : nat) :
  forall (b : nat) (i : N) (content : list byte) (pos : N) (vec : list byte),
    (a = 0 \/ N.to_nat pos + a <= length content)%nat ->
    (N.to_nat i + a <= length vec)%nat ->
    getTransactionsFromFile_loop (a + b) i
      (mkfstream content true pos false false) vec
    = getTransactionsFromFile_loop b (i + N.of_nat a)
        (mkfstream content true (pos + N.of_nat a) false false)
        (take (N.to_nat i) vec
         ++ take a (drop (N.to_nat pos) content)
         ++ drop (N.to_nat i + a) vec).
Proof.
  induction a as [|a IH]; intros b i content pos vec Hfile Hvec.
  - cbn [Nat.add N.of_nat]. rewrite !N.add_0_r, Nat.add_0_r, take_0.
    cbn [app]. rewrite take_drop. reflexivity.
  - cbn [Nat.add getTransactionsFromFile_loop].
    cbn [good eofbit failbit negb andb].
    unfold get. cbn [good eofbit failbit negb andb is_open file tellg].
    assert (Hlt : (pos <? size content) = true)
      by (apply N.ltb_lt; unfold size; lia).
    rewrite Hlt.
    destruct (content !! N.to_nat pos) as [c|] eqn:Hc.
    2: { apply lookup_ge_None in Hc. lia. }
    rewrite IH.
    2: { cbn. lia. }
    2: { rewrite length_insert. lia. }
    f_equal.
    + lia.
    + f_equal. lia.
    + replace (N.to_nat (i + 1)) with (S (N.to_nat i)) by lia.
      replace (N.to_nat (pos + 1)) with (S (N.to_nat pos)) by lia.
      rewrite (take_S_r _ _ c).
      2: { apply list_lookup_insert_eq. lia. }
      rewrite take_insert_ge by lia.
      rewrite drop_insert_lt by lia.
      rewrite (drop_S content c (N.to_nat pos) Hc).
      rewrite firstn_cons, <- app_assoc. cbn [app].
      replace (S (N.to_nat i) + a)%nat with (N.to_nat i + S a)%nat by lia.
      reflexivity.
Qed.

(** At the end of the file one more iteration stores 255 and leaves the
    stream failed; an iteration after that gives up. *)
Lemma getTransactionsFromFile_loop_at_eof (m : nat) (i : N)
    (content : list byte) (pos : N) (vec : list byte) :
  (length content <= N.to_nat pos)%nat ->
  getTransactionsFromFile_loop (S m) i
    (mkfstream content true pos false false) vec
  = (match m with
     | O => []
     | S _ => [LOG_GENERAL WARNING [Str "Bad byte accessed"]]
     end,
     Ok (match m with O => true | S _ => false end,
         mkfstream content true pos true true,
         <[N.to_nat i := xff]> vec)).
Proof.
  intros Hpos. cbn [getTransactionsFromFile_loop].
  cbn [good eofbit failbit negb andb].
  unfold get. cbn [good eofbit failbit negb andb is_open file tellg].
  assert (Hge : (pos <? size content) = false)
    by (apply N.ltb_ge; unfold size; lia).
  rewrite Hge. destruct m; reflexivity.
Qed.

Lemma uint_small (n : N) : n < 2 ^ 32 -> uint n = n.
Proof. apply N.mod_small. Qed.

Lemma uint_sub_1 (n : N) : 1 <= n -> n < 2 ^ 32 -> uint_sub n 1 = n - 1.
Proof.
  intros H1 H32. unfold uint_sub. change (uint 1) with 1. unfold uint.
  symmetry. apply (N.mod_unique _ _ 1); lia.
Qed.

(** What [getTransactionsFromFile] does on an open stream that has not
    failed: with [n] bytes asked for from [offset] and [avail] bytes of
    the file from there on, it copies [n] bytes when it can, and
    otherwise what there is, then stores 255 once. *)
Lemma getTransactionsFromFile_open (f : fstream) (startNum totalNum : N)
    (vec : list byte) :
  is_open f = true -> failbit f = false ->
  let offset := uint (uint_sub startNum 1 * TXN_SIZE) in
  let n := uint (TXN_SIZE * totalNum) in
  let avail := size (file f) - offset in
  getTransactionsFromFile f startNum totalNum vec
  = if n <=? avail then
      ([], Ok (true, mkfstream (file f) true (offset + n) false false,
               take (N.to_nat n) (drop (N.to_nat offset) (file f))))
    else
      (if n <=? avail + 1 then []
       else [LOG_GENERAL WARNING [Str "Bad byte accessed"]],
       Ok (n <=? avail + 1,
           mkfstream (file f) true (offset + avail) true true,
           take (N.to_nat avail) (drop (N.to_nat offset) (file f))
           ++ xff :: drop (N.to_nat avail + 1) (resize vec n))).
Proof.
  destruct f as [content o pos e fl].
  intros Ho Hfl offset n avail. cbn [is_open failbit file] in *.
  subst o fl.
  unfold getTransactionsFromFile, seekg. cbn [failbit is_open file tellg].
  fold offset. fold n.
  pose proof (resize_length vec n) as Hlen.
  set (vec0 := resize vec n) in *.
  destruct (N.leb_spec n avail) as [Hle | Hgt].
  - replace (N.to_nat n) with (N.to_nat n + 0)%nat at 1 by lia.
    rewrite getTransactionsFromFile_loop_copies.
    2: { subst avail. unfold size in Hle. lia. }
    2: { change (N.to_nat 0) with 0%nat. lia. }
    cbn [getTransactionsFromFile_loop].
    change (N.to_nat 0) with 0%nat. rewrite take_0, N2Nat.id.
    cbn [app Nat.add]. rewrite (drop_ge vec0) by lia.
    rewrite app_nil_r. reflexivity.
  - assert (Hn : N.to_nat n
                 = (N.to_nat avail + S (N.to_nat n - N.to_nat avail - 1))%nat)
      by lia.
    rewrite Hn at 1.
    rewrite getTransactionsFromFile_loop_copies.
    2: { subst avail. unfold size. lia. }
    2: { change (N.to_nat 0) with 0%nat. lia. }
    rewrite getTransactionsFromFile_loop_at_eof.
    2: { subst avail. unfold size. lia. }
    change (N.to_nat 0) with 0%nat. rewrite take_0, N2Nat.id.
    cbn [app Nat.add]. rewrite N.add_0_l.
    assert (Hvec :
      <[N.to_nat avail := xff]>
        (take (N.to_nat avail) (drop (N.to_nat offset) content)
         ++ drop (N.to_nat avail) vec0)
      = take (N.to_nat avail) (drop (N.to_nat offset) content)
        ++ xff :: drop (N.to_nat avail + 1) vec0).
    { assert (Htake : length (take (N.to_nat avail)
                                (drop (N.to_nat offset) content))
                      = N.to_nat avail).
      { rewrite length_take, length_drop. subst avail. unfold size. lia. }
      rewrite insert_app_r_alt by lia.
      rewrite Htake, Nat.sub_diag.
      destruct (drop (N.to_nat avail) vec0) as [|y rest] eqn:Hdrop.
      { apply (f_equal length) in Hdrop. rewrite length_drop in Hdrop.
        cbn in Hdrop. lia. }
      cbn [insert list_insert]. do 2 f_equal.
      rewrite <- (drop_drop vec0 1 (N.to_nat avail)), Hdrop.
      reflexivity. }
    rewrite Hvec.
    destruct (N.leb_spec n (avail + 1)) as [Hone | Hmore].
    + replace (N.to_nat n - N.to_nat avail - 1)%nat with 0%nat by lia.
      reflexivity.
    + destruct (N.to_nat n - N.to_nat avail - 1)%nat as [|m] eqn:Hm;
        [lia | reflexivity].
Qed.

(** X16: Transactions are numbered from 1: when the file holds them all,
    the call for [totalNum] transactions from number [startNum] returns
    true, logs nothing, and leaves in the vector exactly the [317 *
    totalNum] bytes of the file that start at byte [317 * (startNum -
    1)], whatever the vector held before. *)
Theorem getTransactionsFromFile_reads_the_transactions
    (f : fstream) (startNum totalNum : N) (vec : list byte) :
  is_open f = true -> failbit f = false ->
  1 <= startNum -> startNum * TXN_SIZE <= 2 ^ 32 ->
  TXN_SIZE * totalNum < 2 ^ 32 ->
  (startNum - 1) * TXN_SIZE + TXN_SIZE * totalNum <= size (file f) ->
  getTransactionsFromFile f startNum totalNum vec
  = ([], Ok (true,
             mkfstream (file f) true
               ((startNum - 1) * TXN_SIZE + TXN_SIZE * totalNum) false false,
             take (N.to_nat (TXN_SIZE * totalNum))
               (drop (N.to_nat ((startNum - 1) * TXN_SIZE)) (file f)))).
Proof.
  intros Hopen Hfail H1 Hstart Htotal Hfile.
  rewrite (getTransactionsFromFile_open f startNum totalNum vec Hopen Hfail).
  unfold TXN_SIZE in *.
  rewrite (uint_sub_1 startNum) by lia.
  rewrite !uint_small by lia.
  destruct (N.leb_spec (317 * totalNum) (size (file f) - (startNum - 1) * 317))
    as [_ | Hgt]; [reflexivity | lia].
Qed.

Lemma getTransactionsFromFile_reads_the_transactions_witness :
  getTransactionsFromFile example_fstream 2 1 [xaa; xbb]
  = ([], Ok (true, mkfstream example_file true 634 false false,
             replicate 317 x02)).
Proof.
  apply (getTransactionsFromFile_reads_the_transactions
           example_fstream 2 1 [xaa; xbb]).
  - reflexivity.
  - reflexivity.
  - vm_compute. discriminate.
  - vm_compute. discriminate.
  - reflexivity.
  - vm_compute. discriminate.
Defined.

(** X17: On an open stream that has not failed, the call returns false,
    and logs "Bad byte accessed", exactly when the file lacks two or
    more of the bytes asked for; a file that lacks none or just one
    gives true and no log line. *)
Theorem getTransactionsFromFile_false_iff_two_bytes_short
    (f : fstream) (startNum totalNum : N) (vec : list byte) :
  is_open f = true -> failbit f = false ->
  let offset := uint (uint_sub startNum 1 * TXN_SIZE) in
  let n := uint (TXN_SIZE * totalNum) in
  let avail := size (file f) - offset in
  exists (b : bool) (f' : fstream) (vec' : list byte),
    getTransactionsFromFile f startNum totalNum vec
    = (if b then [] else [LOG_GENERAL WARNING [Str "Bad byte accessed"]],
       Ok (b, f', vec')) /\
    (b = false <-> avail + 1 < n).
Proof.
  intros Hopen Hfail offset n avail.
  rewrite (getTransactionsFromFile_open f startNum totalNum vec Hopen Hfail).
  fold offset. fold n. fold avail.
  destruct (N.leb_spec n avail) as [Hle | Hgt].
  - eexists true, _, _. split; [reflexivity|]. split; [discriminate | lia].
  - destruct (N.leb_spec n (avail + 1)) as [Hone | Hmore].
    + eexists true, _, _. split; [reflexivity|].
      split; [discriminate | lia].
    + eexists false, _, _. split; [reflexivity|]. split; [lia | reflexivity].
Qed.

Lemma getTransactionsFromFile_false_iff_two_bytes_short_witness :
  exists (b : bool) (f' : fstream) (vec' : list byte),
    getTransactionsFromFile example_fstream 2 2 []
    = (if b then [] else [LOG_GENERAL WARNING [Str "Bad byte accessed"]],
       Ok (b, f', vec')) /\
    (b = false <->
     size example_file - uint (uint_sub 2 1 * TXN_SIZE) + 1
     < uint (TXN_SIZE * 2)).
Proof.
  apply (getTransactionsFromFile_false_iff_two_bytes_short
           example_fstream 2 2 []).
  - reflexivity.
  - reflexivity.
Defined.

(** X18: One byte short is not noticed: when the file ends one byte
    before the end of what is asked for, the call returns true and logs
    nothing, although the last byte of the vector is 255 and not a byte
    of the file, and the stream is left failed at end of file. *)
Theorem getTransactionsFromFile_one_byte_short_returns_true
    (f : fstream) (startNum totalNum : N) (vec : list byte) :
  is_open f = true -> failbit f = false ->
  let offset := uint (uint_sub startNum 1 * TXN_SIZE) in
  let n := uint (TXN_SIZE * totalNum) in
  let avail := size (file f) - offset in
  n = avail + 1 ->
  getTransactionsFromFile f startNum totalNum vec
  = ([], Ok (true,
             mkfstream (file f) true (offset + avail) true true,
             take (N.to_nat avail) (drop (N.to_nat offset) (file f))
             ++ [xff])).
Proof.
  intros Hopen Hfail offset n avail Hn.
  rewrite (getTransactionsFromFile_open f startNum totalNum vec Hopen Hfail).
  fold offset. fold n. fold avail.
  destruct (N.leb_spec n avail) as [Hle | _]; [lia|].
  destruct (N.leb_spec n (avail + 1)) as [_ | Hmore]; [|lia].
  rewrite (drop_ge (resize vec n)); [reflexivity|].
  rewrite resize_length. lia.
Qed.

Lemma getTransactionsFromFile_one_byte_short_returns_true_witness :
  getTransactionsFromFile
    (mkfstream (replicate 316 x01) true 0 false false) 1 1 []
  = ([], Ok (true, mkfstream (replicate 316 x01) true 316 true true,
             replicate 316 x01 ++ [xff])).
Proof.
  apply (getTransactionsFromFile_one_byte_short_returns_true
           (mkfstream (replicate 316 x01) true 0 false false) 1 1 []).
  - reflexivity.
  - reflexivity.
  - reflexivity.
Defined.

(** X19: Whatever the stream (closed, failed, too short) and whatever
    the vector held, the call ends without an exception and leaves the
    vector with exactly [317 * totalNum] (modulo 2^32) bytes, also when
    it returns false. *)
Theorem getTransactionsFromFile_resizes_the_vector
    (f : fstream) (startNum totalNum : N) (vec : list byte) :
  exists (t : list Effect) (b : bool) (f' : fstream) (vec' : list byte),
    getTransactionsFromFile f startNum totalNum vec = (t, Ok (b, f', vec')) /\
    size vec' = uint (TXN_SIZE * totalNum).
Proof.
  unfold getTransactionsFromFile.
  destruct (getTransactionsFromFile_loop_length
              (N.to_nat (uint (TXN_SIZE * totalNum))) 0
              (seekg f (uint (uint_sub startNum 1 * TXN_SIZE)))
              (resize vec (uint (TXN_SIZE * totalNum))))
    as (t & b & f' & vec' & Heq & Hlen).
  exists t, b, f', vec'. split; [exact Heq|].
  unfold size. rewrite Hlen, resize_length. apply N2Nat.id.
Qed.

(** X22: When the file of the address does not exist, [GetFromFile]
    returns false at once with the log line "File failed to open", and
    the caller's vector comes back empty, whatever it held. *)
Theorem GetFromFile_missing_file
    (Address : Type) (hex : Address -> string)
    (fs : gmap string (list byte)) (addr : Address)
    (startNum totalNum : N) (vec : list byte) :
  fs !! ("/home/kaustubh/Documents/LookupTxn/Zilliqa/txns/"
         +:+ hex addr +:+ ".zil") = None ->
  GetFromFile hex fs addr startNum totalNum vec
  = ([LOG_GENERAL WARNING [Str "File failed to open"]], Ok (false, [])).
Proof.
  intros Hnone. unfold GetFromFile, open. rewrite Hnone. reflexivity.
Qed.

Lemma GetFromFile_missing_file_witness :
  GetFromFile (fun _ : list byte => "0a0b") example_fs [x0a; x0b] 1 1
    [x01; x02; x03]
  = ([LOG_GENERAL WARNING [Str "File failed to open"]], Ok (false, [])).
Proof.
  apply (GetFromFile_missing_file (list byte) (fun _ => "0a0b")
           example_fs [x0a; x0b] 1 1 [x01; x02; x03]).
  vm_compute. reflexivity.
Defined.

(** X23: When the file of the address exists and holds the transactions
    asked for, [GetFromFile] returns true, logs nothing, and the vector
    holds these transactions and nothing of what it held before. *)
Theorem GetFromFile_reads_the_transactions
    (Address : Type) (hex : Address -> string)
    (fs : gmap string (list byte)) (addr : Address)
    (startNum totalNum : N) (vec content : list byte) :
  fs !! ("/home/kaustubh/Documents/LookupTxn/Zilliqa/txns/"
         +:+ hex addr +:+ ".zil") = Some content ->
  1 <= startNum -> startNum * TXN_SIZE <= 2 ^ 32 ->
  TXN_SIZE * totalNum < 2 ^ 32 ->
  (startNum - 1) * TXN_SIZE + TXN_SIZE * totalNum <= size content ->
  GetFromFile hex fs addr startNum totalNum vec
  = ([], Ok (true,
             take (N.to_nat (TXN_SIZE * totalNum))
               (drop (N.to_nat ((startNum - 1) * TXN_SIZE)) content))).
Proof.
  intros Hsome H1 Hstart Htotal Hfile. unfold GetFromFile, open.
  rewrite Hsome. cbn [is_open negb].
  rewrite (getTransactionsFromFile_open
             (mkfstream content true 0 false false) startNum totalNum []
             eq_refl eq_refl).
  cbn [file]. unfold TXN_SIZE in *.
  rewrite (uint_sub_1 startNum) by lia.
  rewrite !uint_small by lia.
  destruct (N.leb_spec (317 * totalNum) (size content - (startNum - 1) * 317))
    as [_ | Hgt]; [reflexivity | lia].
Qed.

Lemma GetFromFile_reads_the_transactions_witness :
  GetFromFile example_hex example_fs [x00; xff] 1 2 [xaa]
  = ([], Ok (true, example_file)).
Proof.
  apply (GetFromFile_reads_the_transactions (list byte) example_hex
           example_fs [x00; xff] 1 2 [xaa] example_file).
  - vm_compute. reflexivity.
  - vm_compute. discriminate.
  - vm_compute. discriminate.
  - reflexivity.
  - vm_compute. discriminate.
Defined.

(** X24: When the file exists but lacks two or more of the bytes asked
    for, [GetFromFile] returns false with the log line "Bad byte
    accessed", and the vector is neither empty nor what it was: it has
    the full size asked for, the bytes the file had, one byte 255, and
    zeros. *)
Theorem GetFromFile_short_file
    (Address : Type) (hex : Address -> string)
    (fs : gmap string (list byte)) (addr : Address)
    (startNum totalNum : N) (vec content : list byte) :
  fs !! ("/home/kaustubh/Documents/LookupTxn/Zilliqa/txns/"
         +:+ hex addr +:+ ".zil") = Some content ->
  let offset := uint (uint_sub startNum 1 * TXN_SIZE) in
  let n := uint (TXN_SIZE * totalNum) in
  let avail := size content - offset in
  avail + 1 < n ->
  GetFromFile hex fs addr startNum totalNum vec
  = ([LOG_GENERAL WARNING [Str "Bad byte accessed"]],
     Ok (false,
         take (N.to_nat avail) (drop (N.to_nat offset) content)
         ++ xff :: replicate (N.to_nat (n - avail - 1)) x00)).
Proof.
  intros Hsome offset n avail Hshort. unfold GetFromFile, open.
  rewrite Hsome. cbn [is_open negb].
  rewrite (getTransactionsFromFile_open
             (mkfstream content true 0 false false) startNum totalNum []
             eq_refl eq_refl).
  cbn [file]. fold offset. fold n. fold avail.
  destruct (N.leb_spec n avail) as [Hle | _]; [lia|].
  destruct (N.leb_spec n (avail + 1)) as [Hone | _]; [lia|].
  unfold resize. rewrite take_nil. cbn [app length].
  rewrite Nat.sub_0_r, drop_replicate.
  replace (N.to_nat n - (N.to_nat avail + 1))%nat
    with (N.to_nat (n - avail - 1)) by lia.
  reflexivity.
Qed.

Lemma GetFromFile_short_file_witness :
  GetFromFile example_hex example_fs [x00; xff] 2 2 [xaa]
  = ([LOG_GENERAL WARNING [Str "Bad byte accessed"]],
     Ok (false, replicate 317 x02 ++ xff :: replicate 316 x00)).
Proof.
  apply (GetFromFile_short_file (list byte) example_hex
           example_fs [x00; xff] 2 2 [xaa] example_file).
  - vm_compute. reflexivity.
  - reflexivity.
Defined.

(** X20: Number 0 is not a transaction: [startNum - 1] wraps around to
    2^32 - 1, the stream is positioned 317 bytes below 4 GiB, and on any
    file that ends before that position a call for at least one
    transaction returns false with "Bad byte accessed", having read
    nothing of the file. *)
Theorem getTransactionsFromFile_startNum_0
    (f : fstream) (totalNum : N) (vec : list byte) :
  is_open f = true -> failbit f = false ->
  size (file f) <= 2 ^ 32 - TXN_SIZE ->
  1 <= totalNum -> TXN_SIZE * totalNum < 2 ^ 32 ->
  getTransactionsFromFile f 0 totalNum vec
  = ([LOG_GENERAL WARNING [Str "Bad byte accessed"]],
     Ok (false,
         mkfstream (file f) true (2 ^ 32 - TXN_SIZE) true true,
         xff :: drop 1 (resize vec (TXN_SIZE * totalNum)))).
Proof.
  intros Hopen Hfail Hfile H1 Htotal.
  rewrite (getTransactionsFromFile_open f 0 totalNum vec Hopen Hfail).
  change (uint (uint_sub 0 1 * TXN_SIZE)) with (2 ^ 32 - TXN_SIZE).
  unfold TXN_SIZE in *. rewrite !uint_small by lia.
  replace (size (file f) - (2 ^ 32 - 317)) with 0 by lia.
  destruct (N.leb_spec (317 * totalNum) 0) as [Hle | _]; [lia|].
  destruct (N.leb_spec (317 * totalNum) (0 + 1)) as [Hone | _]; [lia|].
  rewrite N.add_0_r. reflexivity.
Qed.

Lemma getTransactionsFromFile_startNum_0_witness :
  getTransactionsFromFile example_fstream 0 1 []
  = ([LOG_GENERAL WARNING [Str "Bad byte accessed"]],
     Ok (false, mkfstream example_file true 4294966979 true true,
         xff :: replicate 316 x00)).
Proof.
  apply (getTransactionsFromFile_startNum_0 example_fstream 1 []).
  - reflexivity.
  - reflexivity.
  - vm_compute. discriminate.
  - vm_compute. discriminate.
  - reflexivity.
Defined.

(** X21: On a stream that is closed or has already failed, a call for at
    least one byte returns false with "Bad byte accessed" before any
    byte is read or stored: the vector is only resized. *)
Theorem getTransactionsFromFile_unusable_stream
    (f : fstream) (startNum totalNum : N) (vec : list byte) :
  is_open f = false \/ failbit f = true ->
  1 <= uint (TXN_SIZE * totalNum) ->
  exists f' : fstream,
    good f' = false /\
    getTransactionsFromFile f startNum totalNum vec
    = ([LOG_GENERAL WARNING [Str "Bad byte accessed"]],
       Ok (false, f', resize vec (uint (TXN_SIZE * totalNum)))).
Proof.
  intros Hbad Hn. unfold getTransactionsFromFile.
  set (f' := seekg f (uint (uint_sub startNum 1 * TXN_SIZE))).
  assert (Hgood : good f' = false).
  { subst f'. unfold seekg.
    destruct f as [content o pos e fl]. cbn [failbit is_open] in *.
    destruct fl; [reflexivity|]. destruct o; [|reflexivity].
    destruct Hbad; discriminate. }
  exists f'. split; [exact Hgood|].
  destruct (N.to_nat (uint (TXN_SIZE * totalNum))) as [|m] eqn:Hm; [lia|].
  cbn [getTransactionsFromFile_loop]. rewrite Hgood. reflexivity.
Qed.

Lemma getTransactionsFromFile_unusable_stream_witness :
  exists f' : fstream,
    good f' = false /\
    getTransactionsFromFile (mkfstream example_file false 0 false false)
      1 1 [xaa]
    = ([LOG_GENERAL WARNING [Str "Bad byte accessed"]],
       Ok (false, f', resize [xaa] (uint (TXN_SIZE * 1)))).
Proof.
  apply (getTransactionsFromFile_unusable_stream
           (mkfstream example_file false 0 false false) 1 1 [xaa]).
  - left. reflexivity.
  - vm_compute. discriminate.
Defined.
